(** * CoLoRS VCF anonymiser: [docker/vcfparser/scripts/parser.py]

    A shallow embedding of the two classes of [parser.py], [VCFParser] and
    [VariantRecord], together with the fragment of Python's built-in
    semantics that their methods rely on, and the properties of the
    anonymising transformations stated over that embedding.

    Conventions.
    - A Python [str] is a Rocq [string]; every character stands for the code
      point of the same number, so the strings covered are those whose code
      points are below 256.
    - A Python [int] is a [Z]; lengths and positions in a list are [nat].
    - A Python [float] is a primitive binary64 [float].
    - An exception is a value of [exn]; a computation that may raise returns
      a [result].  A method that mutates [self] returns the raised exception
      (or its value) together with the object as it is left; a constructor
      that raises leaves no object. *)

From Stdlib Require Import Ascii ZArith Lia PrimFloat FloatOps SpecFloat.
From stdpp Require Import base gmap strings list fin_maps pretty.

Local Open Scope string_scope.
Local Open Scope Z_scope.

(** ** Python built-ins *)

Module Py.

(** The exception classes that [parser.py] raises itself or that the
    built-ins it calls raise. *)
Inductive exn : Set :=
| IOError | ValueError | TypeError | KeyError | IndexError
| AttributeError | UnboundLocalError | ZeroDivisionError | OverflowError
| SyntaxError.

Inductive result (A : Type) : Type :=
| Ok (a : A)
| Err (e : exn).
Global Arguments Ok {A} a.
Global Arguments Err {A} e.

Global Instance result_ret : MRet result := fun _ a => Ok a.
Global Instance result_bind : MBind result := fun _ _ f m =>
  match m with
  | Ok a => f a
  | Err e => Err e
  end.
Global Instance result_fmap : FMap result := fun _ _ f m =>
  match m with
  | Ok a => Ok (f a)
  | Err e => Err e
  end.

Definition raises {A} (m : result A) : Prop := exists e, m = Err e.

(** The values a [sample_dict] entry can hold: the fields read from the
    line are [str]; two branches of [convert_to_haploid] store an [int]. *)
Inductive value : Set :=
| VStr (s : string)
| VInt (z : Z).

Global Instance value_eq_dec : EqDecision value.
Proof. solve_decision. Defined.

Global Instance exn_eq_dec : EqDecision exn.
Proof. solve_decision. Defined.

(** *** Characters *)

Definition code (c : ascii) : N := N_of_ascii c.

(** [str.isspace] on one character, for code points below 256: the ASCII
    controls 9-13 and 28-31, the space, NEL (133) and NBSP (160). *)
Definition is_space (c : ascii) : bool :=
  let n := code c in
  ((9 <=? n) && (n <=? 13) || (28 <=? n) && (n <=? 32)
   || (n =? 133) || (n =? 160))%N.

Definition is_digit (c : ascii) : bool :=
  let n := code c in ((48 <=? n) && (n <=? 57))%N.

Definition is_upper_ascii (c : ascii) : bool :=
  let n := code c in ((65 <=? n) && (n <=? 90))%N.

Definition is_lower_ascii (c : ascii) : bool :=
  let n := code c in ((97 <=? n) && (n <=? 122))%N.

(** The character class [[a-zA-Z0-9_]]. *)
Definition is_word (c : ascii) : bool :=
  is_lower_ascii c || is_upper_ascii c || is_digit c || bool_decide (c = "_"%char).

(** [str.lower] on one character below 256: A-Z, and the Latin-1 capitals
    192-222 except the multiplication sign 215, move up by 32. *)
Definition lower_char (c : ascii) : ascii :=
  let n := code c in
  if ((65 <=? n) && (n <=? 90) || (192 <=? n) && (n <=? 222) && negb (n =? 215))%N
  then ascii_of_N (n + 32) else c.

(** *** Strings *)

Fixpoint lower (s : string) : string :=
  match s with
  | EmptyString => EmptyString
  | String c s' => String (lower_char c) (lower s')
  end.

(** [s.startswith(p)] *)
Fixpoint startswith (p s : string) : bool :=
  match p, s with
  | EmptyString, _ => true
  | String a p', String b s' => bool_decide (a = b) && startswith p' s'
  | String _ _, EmptyString => false
  end.

(** [s.rstrip()]: trailing white space removed. *)
Fixpoint rstrip (s : string) : string :=
  match s with
  | EmptyString => EmptyString
  | String c s' =>
      match rstrip s' with
      | EmptyString => if is_space c then EmptyString else String c EmptyString
      | r => String c r
      end
  end.

(** [s[1:]] *)
Definition tail (s : string) : string :=
  match s with
  | EmptyString => EmptyString
  | String _ s' => s'
  end.

(** [s.split(sep)] for a separator of one character: never empty, one more
    field than there are separators. *)
Fixpoint split (sep : ascii) (s : string) : list string :=
  match s with
  | EmptyString => [EmptyString]
  | String c s' =>
      if bool_decide (c = sep) then EmptyString :: split sep s'
      else match split sep s' with
           | w :: ws => String c w :: ws
           | [] => [String c EmptyString]
           end
  end.

(** [sep.join(l)] for a list of [str]. *)
Fixpoint join (sep : string) (l : list string) : string :=
  match l with
  | [] => EmptyString
  | [x] => x
  | x :: xs => x +:+ sep +:+ join sep xs
  end.

(** [sep.join(l)] for a list of arbitrary values: [TypeError] at the first
    item that is not a [str]. *)
Definition as_str (v : value) : result string :=
  match v with
  | VStr s => Ok s
  | VInt _ => Err TypeError
  end.

Definition join_values (sep : string) (l : list value) : result string :=
  join sep <$> mapM as_str l.

(** [c in s] for a character. *)
Fixpoint contains_char (c : ascii) (s : string) : bool :=
  match s with
  | EmptyString => false
  | String a s' => bool_decide (a = c) || contains_char c s'
  end.

(** *** int() and str() *)

Definition digit_value (c : ascii) : Z := Z.of_N (code c) - 48.

(** The digits of a decimal literal: at least one digit, single
    underscores allowed between two digits only.  [seen] tells whether the
    previous character was a digit. *)
Fixpoint int_digits (s : string) (acc : Z) (seen : bool) : option Z :=
  match s with
  | EmptyString => if seen then Some acc else None
  | String c s' =>
      if is_digit c then int_digits s' (10 * acc + digit_value c) true
      else if bool_decide (c = "_"%char) && seen then int_digits s' acc false
      else None
  end.

(** The white space that [int()] skips around a literal.  It is not that
    of [str.rstrip]: the scanner skips the C locale's [isspace] characters
    (9-13 and the space); a [str] with a code point above 126 is first
    transcribed to ASCII, its Unicode spaces NEL (133) and NBSP (160)
    becoming blanks.  The separators 28-31 are not skipped. *)
Definition is_int_space (c : ascii) : bool :=
  let n := code c in
  ((9 <=? n) && (n <=? 13) || (n =? 32) || (n =? 133) || (n =? 160))%N.

Fixpoint int_rstrip (s : string) : string :=
  match s with
  | EmptyString => EmptyString
  | String c s' =>
      match int_rstrip s' with
      | EmptyString => if is_int_space c then EmptyString else String c EmptyString
      | r => String c r
      end
  end.

Fixpoint int_lstrip (s : string) : string :=
  match s with
  | String c s' => if is_int_space c then int_lstrip s' else s
  | EmptyString => EmptyString
  end.

(** The number of digits of a literal, underscores left out. *)
Fixpoint count_digits (s : string) : N :=
  match s with
  | EmptyString => 0%N
  | String c s' => ((if is_digit c then 1 else 0) + count_digits s')%N
  end.

(** [sys.int_info.default_max_str_digits]: the interpreter's cap on the
    digits of a decimal conversion, which [parser.py] leaves at its
    default. *)
Definition max_str_digits : N := 4300.

(** [int(s)] for a [str]: white space around the literal is ignored, then
    an optional sign, then the digits; anything else is a [ValueError], and
    so is a well-formed literal of more than [max_str_digits] digits. *)
Definition int (s : string) : result Z :=
  let literal := int_lstrip (int_rstrip s) in
  let digits :=
    match literal with
    | String "-" d => d
    | String "+" d => d
    | d => d
    end in
  let body :=
    match literal with
    | String "-" d => Z.opp <$> int_digits d 0 false
    | String "+" d => int_digits d 0 false
    | d => int_digits d 0 false
    end in
  match body with
  | Some z =>
      if (max_str_digits <? count_digits digits)%N then Err ValueError else Ok z
  | None => Err ValueError
  end.

(** [str(z)] for an [int].  The program converts positions in a list
    only. *)
Definition str (z : Z) : string := pretty z.

(** *** Lists *)

(** [l[i]] with Python's negative subscripts. *)
Definition getitem {A} (l : list A) (i : Z) : result A :=
  let n := Z.of_nat (length l) in
  let j := if i <? 0 then i + n else i in
  if (0 <=? j) && (j <? n) then
    match l !! Z.to_nat j with
    | Some x => Ok x
    | None => Err IndexError
    end
  else Err IndexError.

(** [l.index(x)]: the first position of [x], else [ValueError]. *)
Fixpoint index `{EqDecision A} (x : A) (l : list A) : result nat :=
  match l with
  | [] => Err ValueError
  | y :: l' => if decide (y = x) then Ok 0%nat else S <$> index x l'
  end.

(** [l.count(x)] *)
Definition count `{EqDecision A} (x : A) (l : list A) : nat :=
  length (filter (fun y => y = x) l).

(** [max(l)] and [min(l)] on a list of [int]: [ValueError] when empty. *)
Definition max (l : list Z) : result Z :=
  match l with
  | [] => Err ValueError
  | x :: l' => Ok (foldl Z.max x l')
  end.

Definition min (l : list Z) : result Z :=
  match l with
  | [] => Err ValueError
  | x :: l' => Ok (foldl Z.min x l')
  end.

(** [x in l] *)
Definition contains `{EqDecision A} (x : A) (l : list A) : bool :=
  bool_decide (x ∈ l).

(** *** Dictionaries with [str] keys *)

(** [dict(zip(keys, vals))]: [zip] stops at the shorter list and a key that
    occurs twice keeps its last value. *)
Definition dict_zip (keys : list string) (vals : list value)
  : gmap string value :=
  foldl (fun d kv => <[kv.1 := kv.2]> d) ∅ (zip keys vals).

(** [d[k]]: [KeyError] when absent. *)
Definition dict_get (d : gmap string value) (k : string) : result value :=
  match d !! k with
  | Some v => Ok v
  | None => Err KeyError
  end.

(** Reading a local variable that may not have been assigned yet. *)
Definition local {A} (v : option A) : result A :=
  match v with
  | Some a => Ok a
  | None => Err UnboundLocalError
  end.

End Py.

Import Py.

(** ** class VCFParser *)

Module VCFParser.

(** The attributes of a [VCFParser].  [vcf] is the opened text stream,
    given by the lines that [readline] has still to return, each with its
    line terminator.  [header] is assigned by [parse_header_line] only, so
    it is unset ([None]) until a header line has been read. *)
Record t : Type := mk {
  vcf : list string;
  beginning : bool;
  metadata : list string;
  header : option (list string);
  samples : list string;
  next_line : string;
}.

Definition header_columns : list string :=
  ["CHROM"; "POS"; "ID"; "REF"; "ALT"; "QUAL"; "FILTER"; "INFO"; "FORMAT"].

Definition set_metadata (m : list string) (self : t) : t :=
  mk (vcf self) (beginning self) m (header self) (samples self) (next_line self).
Definition set_header (h : list string) (self : t) : t :=
  mk (vcf self) (beginning self) (metadata self) (Some h) (samples self) (next_line self).
Definition set_samples (s : list string) (self : t) : t :=
  mk (vcf self) (beginning self) (metadata self) (header self) s (next_line self).
Definition set_next_line (l : string) (rest : list string) (self : t) : t :=
  mk rest (beginning self) (metadata self) (header self) (samples self) l.

(** The remainder of [s] after its longest prefix of word characters. *)
Fixpoint after_word_run (s : string) : string :=
  match s with
  | String c s' => if is_word c then after_word_run s' else s
  | EmptyString => EmptyString
  end.

Definition newline : ascii := ascii_of_N 10.

(** [self.sample_pattern.match(name)] for the compiled pattern
    [^[a-zA-Z0-9_]+$]: a non-empty run of word characters that reaches a
    place where [$] matches, which (no MULTILINE flag) is the end of the
    string or the position just before a newline that ends the string. *)
Definition sample_pattern_match (name : string) : bool :=
  match name with
  | String c s' =>
      is_word c &&
      match after_word_run s' with
      | EmptyString => true
      | String d EmptyString => bool_decide (d = newline)
      | _ => false
      end
  | EmptyString => false
  end.

(** [parse_header_line]: [self.header] is assigned before the columns are
    checked, [self.samples] before the samples are counted. *)
Definition parse_header_line (line : string) (self : t) : result unit * t :=
  let hdr := split (ascii_of_N 9) (rstrip (tail line)) in
  let self := set_header hdr self in
  if bool_decide (take 9 hdr ≠ header_columns) then (Err IOError, self)
  else
    let self := set_samples (drop 9 hdr) self in
    if bool_decide (length (samples self) < 1)%nat then (Err IOError, self)
    else (Ok (), self).

(** The [while] loop of [__init__]; [line] is [self.next_line] and [rest]
    the lines still in the stream.  At the end of the stream [readline]
    returns the empty string, which ends the loop. *)
Fixpoint read_block (line : string) (rest : list string) (self : t) : result t :=
  if startswith "#" line then
    let r :=
      if startswith "##" line then
        (Ok (), set_metadata (metadata self ++ [line]) self)
      else if startswith "#" line then parse_header_line line self
      else (Ok (), self) in
    match r with
    | (Err e, _) => Err e
    | (Ok _, self) =>
        match rest with
        | l :: rest' => read_block (rstrip l) rest' self
        | [] => Ok (set_next_line "" [] self)
        end
    end
  else Ok (set_next_line line rest self).

(** [readline] *)
Definition readline (stream : list string) : string * list string :=
  match stream with
  | l :: rest => (l, rest)
  | [] => ("", [])
  end.

(** [__init__] from the point where the stream [self.vcf] is open (the
    choice between the plain and the gzip reader by the file's extension
    precedes it). *)
Definition init (stream : list string) : result t :=
  let self := mk stream true [] None [] "" in
  let (l, rest) := readline stream in
  let first := rstrip l in
  if negb (startswith "#" first) then Err IOError
  else read_block first rest self.

Definition reserved : list string :=
  ["info"; "filter"; "format"; "contig"; "fileformat"].

Definition meta_line (key value : string) : string :=
  "##" +:+ key +:+ "=" +:+ value.

Definition add_meta (key value : string) (self : t) : result unit * t :=
  if negb (contains (lower key) reserved) then
    let meta_line := meta_line key value in
    if negb (contains meta_line (metadata self)) then
      (Ok (), set_metadata (metadata self ++ [meta_line]) self)
    else (Ok (), self)
  else (Err ValueError, self).

Definition change_sample_names (sample_names : list string) (self : t)
  : result unit * t :=
  if bool_decide (length sample_names ≠ length (samples self)) then
    (Err ValueError, self)
  else if negb (forallb sample_pattern_match sample_names) then
    (Err ValueError, self)
  else
    let self := set_samples sample_names self in
    match header self with
    | None => (Err AttributeError, self)
    | Some h => (Ok (), set_header (take 9 h ++ samples self) self)
    end.

Definition print_metadata (self : t) : string :=
  join (String newline EmptyString) (metadata self).

Definition print_headerline (self : t) : result string :=
  match header self with
  | None => Err AttributeError
  | Some h => Ok ("#" +:+ join (String (ascii_of_N 9) EmptyString) h)
  end.

End VCFParser.

(** ** Floating point *)

(** [s / k] where [s] is a [str]: [str] defines no division, so the
    operator raises [TypeError] whatever the two operands contain. *)
Definition str_truediv {A} (s : string) (k : Z) : result A := Err TypeError.

(** The floating-point routines that Python delegates to the platform's C
    library or whose rounding depends on the interpreter's version:
    [10 ** x], [math.log10] and [sum].  Every statement below holds for
    any choice of them. *)
Record libm : Type := Libm {
  pow10 : float -> result float;
  log10 : float -> result float;
  fsum : list float -> float;
}.

(** [x / y] on floats. *)
Definition float_truediv (x y : float) : result float :=
  if PrimFloat.eqb y 0%float then Err ZeroDivisionError
  else Ok (PrimFloat.div x y).

(** [int(x)] for a float: truncation towards zero. *)
Definition float_to_int (x : float) : result Z :=
  match Prim2SF x with
  | S754_zero _ => Ok 0
  | S754_infinity _ => Err OverflowError
  | S754_nan => Err ValueError
  | S754_finite s m e =>
      let a := if 0 <=? e then Z.pos m * 2 ^ e else Z.pos m / 2 ^ (- e) in
      Ok (if s then - a else a)
  end.

(** ** class VariantRecord *)

Module VariantRecord.

Record t : Type := mk {
  line : list string;
  chrom : string;
  pos : string;
  id : string;
  ref : string;
  alts : list string;
  alleles : list string;
  info : string;
  format : string;
  variant_data : list string;
  original_sample_data : list string;
  sample_data : list string;
}.

Definition set_sample_data (sd : list string) (self : t) : t :=
  mk (line self) (chrom self) (pos self) (id self) (ref self) (alts self)
     (alleles self) (info self) (format self) (variant_data self)
     (original_sample_data self) sd.

Definition set_line (l : list string) (self : t) : t :=
  mk l (chrom self) (pos self) (id self) (ref self) (alts self)
     (alleles self) (info self) (format self) (variant_data self)
     (original_sample_data self) (sample_data self).

(** [__init__]: a subscript beyond the line's fields is an [IndexError]. *)
Definition init (variant_line : list string) : result t :=
  chrom ← getitem variant_line 0;
  pos ← getitem variant_line 1;
  id ← getitem variant_line 2;
  ref ← getitem variant_line 3;
  alt ← getitem variant_line 4;
  let alts := split "," alt in
  info ← getitem variant_line 7;
  format ← getitem variant_line 8;
  mret (mk variant_line chrom pos id ref alts (ref :: alts) info format
          (take 9 variant_line) (drop 9 variant_line) (drop 9 variant_line)).

(** [__str__] *)
Definition to_str (self : t) : string :=
  join (String (ascii_of_N 9) EmptyString) (line self).

(** [sample.split(":")[0].split("/")]: the haplotype tokens of a sample. *)
Definition genotype_tokens (sample : string) : list string :=
  split "/" (hd EmptyString (split ":" sample)).

(** [update_genotypes].  The [map(int, ...)] objects are consumed while
    [full_genotypes] is built, so each token is converted just before it
    subscripts [self.alleles]; [self] is assigned only after all three
    lists have been computed. *)
Definition update_genotypes (ref : string) (alts : list string) (self : t)
  : result unit * t :=
  let alleles' := ref :: alts in
  let genotypes := genotype_tokens <$> sample_data self in
  let computed :=
    full_genotypes ←
      mapM (mapM (fun tok => hap ← int tok; getitem (alleles self) hap))
           genotypes;
    new_genotypes ← mapM (mapM (fun hap => index hap alleles')) full_genotypes;
    mret (zip_with
            (fun g sample =>
               join ":" (join "/" ((fun i => str (Z.of_nat i)) <$> g)
                           :: drop 1 (split ":" sample)))
            new_genotypes (sample_data self)) in
  match computed with
  | Err e => (Err e, self)
  | Ok sd =>
      let self := set_sample_data sd self in
      (Ok (), set_line (variant_data self ++ sample_data self) self)
  end.

Definition region : Type := string * Z * Z.

Fixpoint in_regions (chrom : string) (pos : Z) (regions : list region) : bool :=
  match regions with
  | [] => false
  | (region_chrom, region_start, region_end) :: regions' =>
      if bool_decide (chrom = region_chrom)
         && ((region_start <? pos) && (pos <=? region_end))
      then true
      else in_regions chrom pos regions'
  end.

(** A method of [str] called on a dictionary entry. *)
Definition str_method (v : value) : result string :=
  match v with
  | VStr s => Ok s
  | VInt _ => Err AttributeError
  end.

(** [int(v)] for a dictionary entry. *)
Definition int_of_value (v : value) : result Z :=
  match v with
  | VStr s => int s
  | VInt z => Ok z
  end.

(** [int(i * (i + 1) / 2 + j)]: the product is even, so the quotient is
    the integer one. *)
Definition pl_index (i j : nat) : Z :=
  Z.of_nat i * (Z.of_nat i + 1) / 2 + Z.of_nat j.

Section ploidy.
Context (lm : libm).

(** The two nested [for] loops that collect the homozygous entries: for
    every [i], the only [j] of [range(i, num_alleles)] with [i == j] is
    [i] itself. *)
Definition homozygous (num_alleles : nat) (un_normalized_probs : list float)
  : result (list float) :=
  mjoin <$>
  mapM (fun i =>
          mjoin <$>
          mapM (fun j =>
                  if bool_decide (i = j) then
                    p ← getitem un_normalized_probs (pl_index i j); mret [p]
                  else mret [])
               (seq i (num_alleles - i)))
       (seq 0 num_alleles).

(** The loop that picks the call and its quality: [gt] stays unassigned
    until an entry is [0]. *)
Fixpoint call_loop (sample_dict : gmap string value) (i : nat)
    (haploid_pls : list Z) (gt : option value) (gq : Z)
  : result (option value * Z) :=
  match haploid_pls with
  | [] => Ok (gt, gq)
  | pl :: rest =>
      if pl =? 0 then
        g ← dict_get sample_dict "GT";
        call_loop sample_dict (S i) rest
          (Some (if bool_decide (g = VStr "./.") then VStr "." else VInt (Z.of_nat i)))
          gq
      else if pl <? gq then call_loop sample_dict (S i) rest gt pl
      else call_loop sample_dict (S i) rest gt gq
  end.

(** The branch taken when ["PL"] is a format key. *)
Definition convert_pl (self : t) (sample_dict : gmap string value)
  : result (gmap string value) :=
  pl ← dict_get sample_dict "PL" ≫= str_method;
  let pls := split "," pl in
  already_haploid ←
    (if bool_decide (length pls = 2%nat) then mret true
     else gt ← dict_get sample_dict "GT" ≫= str_method;
          mret (bool_decide (length (split "/" gt) = 1%nat)));
  if bool_decide (length pls ≠ 3%nat) then Err ValueError
  else
    let num_alleles := (length (alts self) + 1)%nat in
    un_normalized_probs ←
      mapM (fun pl => x ← str_truediv pl (-10); pow10 lm x) pls;
    homozygous_un_normalized_probs ← homozygous num_alleles un_normalized_probs;
    haploid_probs ←
      mapM (fun p => float_truediv p (fsum lm homozygous_un_normalized_probs))
           homozygous_un_normalized_probs;
    haploid_pls ←
      mapM (fun p => l ← log10 lm p; float_to_int (PrimFloat.mul (-10)%float l))
           haploid_probs;
    min_pl ← min haploid_pls;
    let haploid_pls := (fun pl => pl - min_pl) <$> haploid_pls in
    '(gt, gq) ← call_loop sample_dict 0 haploid_pls None 10000;
    pl' ← join_values "," (VInt <$> haploid_pls);
    gt ← local gt;
    mret (<["GQ" := VInt gq]> (<["GT" := gt]> (<["PL" := VStr pl']> sample_dict))).

(** The branch taken when ["AD"] is a format key and ["PL"] is not.  On a
    tie the local [gt] is set and [sample_dict] is left as it is. *)
Definition convert_ad (sample_dict : gmap string value)
  : result (gmap string value) :=
  ad ← dict_get sample_dict "AD" ≫= str_method;
  ads ← mapM int (split "," ad);
  max_ad ← max ads;
  if bool_decide (count max_ad ads ≠ 1%nat) then
    let gt := "." in mret sample_dict
  else
    gt ← index max_ad ads;
    mret (<["GT" := VStr (str (Z.of_nat gt))]> sample_dict).

(** The branch taken when ["DR"] and ["DV"] are format keys.  [max_ad] is
    the function's local of that name, which only the ["AD"] branch
    assigns. *)
Definition convert_dr_dv (max_ad : option Z) (sample_dict : gmap string value)
  : result (gmap string value) :=
  dr ← dict_get sample_dict "DR" ≫= int_of_value;
  dv ← dict_get sample_dict "DV" ≫= int_of_value;
  let ads := [dr; dv] in
  max_ad ← local max_ad;
  if bool_decide (count max_ad ads = 1%nat) then
    let gt := "." in mret sample_dict
  else
    gt ← index max_ad ads;
    mret (<["GT" := VInt (Z.of_nat gt)]> sample_dict).

Definition convert_to_haploid (sample_idx : nat) (self : t)
  : result (list value) :=
  let max_ad : option Z := None in
  let format := split ":" (format self) in
  s ← getitem (sample_data self) (Z.of_nat sample_idx);
  let sample := split ":" s in
  let sample_dict := dict_zip format (VStr <$> sample) in
  sample_dict ←
    (if contains "PL" format then convert_pl self sample_dict
     else if contains "AD" format then convert_ad sample_dict
     else if contains "DR" format && contains "DV" format then
       convert_dr_dv max_ad sample_dict
     else Err ValueError);
  mapM (dict_get sample_dict) format.

(** The body of the [for] loop of [fix_ploidy], run over the indices
    [idxs]; an exception leaves the samples converted so far in place. *)
Fixpoint fix_samples (sexes : list string) (idxs : list nat) (self : t)
  : result unit * t :=
  match idxs with
  | [] => (Ok (), self)
  | sample_idx :: idxs' =>
      match getitem sexes (Z.of_nat sample_idx) with
      | Err e => (Err e, self)
      | Ok s =>
          let sex := lower s in
          if contains sex ["m"; "male"; "xy"] then
            match convert_to_haploid sample_idx self ≫= join_values ":" with
            | Err e => (Err e, self)
            | Ok new_sample =>
                fix_samples sexes idxs'
                  (set_sample_data (<[sample_idx := new_sample]> (sample_data self)) self)
            end
          else if negb (contains sex ["f"; "female"; "xx"]) then
            (Err ValueError, self)
          else fix_samples sexes idxs' self
      end
  end.

Definition fix_ploidy (sexes : list string) (regions : list region) (self : t)
  : result unit * t :=
  if bool_decide (length sexes ≠ length (sample_data self)) then
    (Err ValueError, self)
  else if bool_decide (original_sample_data self ≠ sample_data self) then
    (Err ValueError, self)
  else
    match int (pos self) with
    | Err e => (Err e, self)
    | Ok p =>
        let r :=
          if in_regions (chrom self) p regions then
            fix_samples sexes (seq 0 (length (sample_data self))) self
          else (Ok (), self) in
        match r with
        | (Err e, self) => (Err e, self)
        | (Ok _, self) =>
            (Ok (), set_line (variant_data self ++ sample_data self) self)
        end
    end.

End ploidy.

End VariantRecord.

(** ** Notions used in the statements *)

(** A string of decimal digits. *)
Fixpoint digits_only (s : string) : bool :=
  match s with
  | EmptyString => true
  | String c s' => is_digit c && digits_only s'
  end.

Definition tab : string := String (ascii_of_N 9) EmptyString.
Definition nl : string := String VCFParser.newline EmptyString.

Module HeaderBlock.
Import VCFParser.

(** One or more ASCII letters, digits or underscores, as the requirement
    on a sample name is worded. *)
Fixpoint all_word (s : string) : bool :=
  match s with
  | EmptyString => true
  | String c s' => is_word c && all_word s'
  end.

Definition is_identifier (s : string) : bool :=
  match s with
  | EmptyString => false
  | String _ _ => all_word s
  end.

(** The lines as [__init__] sees them, and the block of leading lines that
    start with the marker. *)
Fixpoint leading (lines : list string) : list string :=
  match lines with
  | l :: lines' => if startswith "#" l then l :: leading lines' else []
  | [] => []
  end.

Definition block (stream : list string) : list string :=
  leading (rstrip <$> stream).

(** The lines of the block with a single marker. *)
Definition header_lines (blk : list string) : list string :=
  filter (fun l => startswith "##" l = false) blk.

Definition columns (line : string) : list string :=
  split (ascii_of_N 9) (rstrip (tail line)).

Definition wrong_columns (line : string) : Prop :=
  take 9 (columns line) ≠ header_columns.

Definition no_samples (line : string) : Prop :=
  (length (drop 9 (columns line)) < 1)%nat.

Definition first_line (stream : list string) : string :=
  rstrip (readline stream).1.

(** The four ways of being malformed that the description of the reader
    lists. *)
Definition malformed_as_described (stream : list string) : Prop :=
  startswith "#" (first_line stream) = false
  \/ Exists wrong_columns (header_lines (block stream))
  \/ Exists no_samples (header_lines (block stream))
  \/ (1 < length (header_lines (block stream)))%nat.

Definition bad_header (line : string) : Prop :=
  wrong_columns line \/ no_samples line.

(** The ways of being malformed that [__init__] rejects. *)
Definition malformed (stream : list string) : Prop :=
  startswith "#" (first_line stream) = false
  \/ Exists bad_header (header_lines (block stream)).

End HeaderBlock.

(** ** Concrete inputs *)

Module Inputs.

Definition header_line (samples : list string) : string :=
  "#" +:+ join tab (VCFParser.header_columns ++ samples)%list +:+ nl.

(** A file with one metadata line, one header line and one record. *)
Definition one_sample_file : list string :=
  [ "##fileformat=VCFv4.2" +:+ nl;
    header_line ["S1"];
    join tab ["chrX"; "100"; "."; "A"; "T"; "."; "PASS"; "."; "GT:AD"; "0/1:3,10"] +:+ nl ].

(** The same file with the header line repeated under other names. *)
Definition two_headers_file : list string :=
  [ "##fileformat=VCFv4.2" +:+ nl;
    header_line ["S1"];
    header_line ["T1"];
    join tab ["chrX"; "100"; "."; "A"; "T"; "."; "PASS"; "."; "GT:AD"; "0/1:3,10"] +:+ nl ].

(** The parser that [one_sample_file] yields. *)
Definition one_sample_parser : VCFParser.t :=
  VCFParser.mk [] true ["##fileformat=VCFv4.2"]
    (Some (VCFParser.header_columns ++ ["S1"])%list) ["S1"]
    (join tab ["chrX"; "100"; "."; "A"; "T"; "."; "PASS"; "."; "GT:AD"; "0/1:3,10"]).

(** A libm whose routines all answer NaN: enough to run the model where
    no floating-point result is consulted. *)
Definition libm_nan : libm :=
  Libm (fun _ => Ok nan) (fun _ => Ok nan) (fun _ => nan).

(** The record of a biallelic site on chrX at position 100 with the given
    FORMAT and samples. *)
Definition record (format : string) (samples : list string) : VariantRecord.t :=
  let variant_line :=
    (["chrX"; "100"; "."; "A"; "T"; "."; "PASS"; "."; format] ++ samples)%list in
  VariantRecord.mk variant_line "chrX" "100" "." "A" ["T"] ["A"; "T"] "."
    format (take 9 variant_line) samples samples.

Definition par : list VariantRecord.region := [("chrX", 10000, 2781479); ("chrX", 99, 200)].

End Inputs.

Module RecordState.
Import VariantRecord.

(** The serialised line is the fixed fields followed by the current
    sample data: true of a record as [__init__] builds it and restored by
    every method that returns normally. *)
Definition consistent (self : t) : Prop :=
  line self = (variant_data self ++ sample_data self)%list.

(** What holds of the line in every state a record goes through, also
    after [fix_ploidy] has raised half-way: the line can lag behind the
    sample data only once these differ from the snapshot. *)
Definition line_invariant (self : t) : Prop :=
  sample_data self = original_sample_data self -> consistent self.

Definition format_keys (self : t) : list string := split ":" (format self).





End RecordState.

(** ** Iterating over the records *)

Module Reader.

(** What the body of [__iter__] does with one line that is to become a
    record: [len(self.header)] is evaluated first (the attribute may be
    unset), then the field counts are compared, then the record is built. *)
Definition parse_variant (self : VCFParser.t) (line : string)
  : result VariantRecord.t :=
  let variant_line := split (ascii_of_N 9) line in
  match VCFParser.header self with
  | None => Err AttributeError
  | Some header =>
      if bool_decide (length header ≠ length variant_line) then Err SyntaxError
      else VariantRecord.init variant_line
  end.

(** The [for line in self.vcf] loop, run until the stream ends or an
    exception is raised: the records yielded, how the loop ended, and the
    lines left in the stream. *)
Fixpoint iter_lines (self : VCFParser.t) (stream : list string)
  : list VariantRecord.t * result unit * list string :=
  match stream with
  | [] => ([], Ok (), [])
  | l :: rest =>
      let line := rstrip l in
      if negb (startswith "#" line) then
        match parse_variant self line with
        | Err e => ([], Err e, rest)
        | Ok variant =>
            let '(variants, r, remaining) := iter_lines self rest in
            (variant :: variants, r, remaining)
        end
      else iter_lines self rest
  end.

Definition set_beginning (b : bool) (self : VCFParser.t) : VCFParser.t :=
  VCFParser.mk (VCFParser.vcf self) b (VCFParser.metadata self)
    (VCFParser.header self) (VCFParser.samples self) (VCFParser.next_line self).

Definition set_vcf (stream : list string) (self : VCFParser.t) : VCFParser.t :=
  VCFParser.mk stream (VCFParser.beginning self) (VCFParser.metadata self)
    (VCFParser.header self) (VCFParser.samples self) (VCFParser.next_line self).

(** [__iter__], consumed to its end by a caller that does not touch the
    parser in between: the records yielded in order, whether the
    generator returned or raised, and the parser as it is left.  The line
    read ahead by [__init__] comes first; [self.beginning] is cleared when
    the generator is resumed after having yielded its record. *)
Definition iter (self : VCFParser.t)
  : list VariantRecord.t * result unit * VCFParser.t :=
  let first :=
    if VCFParser.beginning self then
      if bool_decide (VCFParser.next_line self ≠ EmptyString) then
        match parse_variant self (VCFParser.next_line self) with
        | Err e => Err e
        | Ok variant => Ok ([variant], set_beginning false self)
        end
      else Ok ([], self)
    else Ok ([], self) in
  match first with
  | Err e => ([], Err e, self)
  | Ok (head, self) =>
      let '(variants, r, remaining) := iter_lines self (VCFParser.vcf self) in
      ((head ++ variants)%list, r, set_vcf remaining self)
  end.

(** The lines that [__iter__] turns into records: the line read ahead,
    unless it is empty or already consumed, and the lines of the stream
    that do not start with the marker, all without trailing white space. *)
Definition data_lines (self : VCFParser.t) : list string :=
  ((if VCFParser.beginning self && bool_decide (VCFParser.next_line self ≠ EmptyString)
    then [VCFParser.next_line self] else [])
   ++ filter (fun l => startswith "#" l = false) (rstrip <$> VCFParser.vcf self))%list.

(** A line with as many tab-separated fields as the header has columns. *)
Definition fits (header : list string) (line : string) : bool :=
  bool_decide (length (split (ascii_of_N 9) line) = length header).

(** The longest prefix of lines that all fit. *)
Fixpoint fitting (header : list string) (lines : list string) : list string :=
  match lines with
  | l :: lines' => if fits header l then l :: fitting header lines' else []
  | [] => []
  end.

(** A record as the iteration hands it out: as many fields as the header
    has columns, sample data as parsed, line in step with them. *)
Definition fresh (header : list string) (v : VariantRecord.t) : Prop :=
  length (VariantRecord.line v) = length header
  /\ VariantRecord.sample_data v = VariantRecord.original_sample_data v
  /\ RecordState.consistent v.

(** What [__init__] leaves to be read: the first line after the block,
    without trailing white space, and the lines after it. *)
Fixpoint after_block (stream : list string) : string * list string :=
  match stream with
  | l :: rest => if startswith "#" (rstrip l) then after_block rest else (rstrip l, rest)
  | [] => (EmptyString, [])
  end.

(** The lines of the block with a double marker. *)
Definition double (blk : list string) : list string :=
  filter (fun l => startswith "##" l = true) blk.

(** What one turn of the loop of [__init__] does with the line at hand. *)
Definition block_step (line : string) (self : VCFParser.t)
  : result unit * VCFParser.t :=
  if startswith "##" line then
    (Ok (), VCFParser.set_metadata (VCFParser.metadata self ++ [line]) self)
  else if startswith "#" line then VCFParser.parse_header_line line self
  else (Ok (), self).

(** The names that [change_sample_names] lets through: an identifier,
    or an identifier followed by one newline. *)
Definition accepted_name (name : string) : Prop :=
  HeaderBlock.is_identifier name = true
  \/ exists w, name = w +:+ nl /\ HeaderBlock.is_identifier w = true.

End Reader.

(** ** Shuffling *)

Module Shuffle.

(** [random.sample(population, k)] with [k = len(population)], in the
    branch that CPython's [random] module takes for such a call: a copy
    [pool] of the population, and for [i] in [range(k)] a draw
    [j = randbelow(n - i)], [result[i] = pool[j]], [pool[j] = pool[n - i - 1]].
    [m] is [n - i] and [draws] are the numbers the generator returns. *)
Fixpoint sample_loop {A} (pool : list A) (m : nat) (draws : list nat)
  : result (list A) :=
  match draws with
  | [] => Ok []
  | j :: draws' =>
      x ← getitem pool (Z.of_nat j);
      y ← getitem pool (Z.of_nat m - 1);
      rest ← sample_loop (<[j := y]> pool) (m - 1) draws';
      mret (x :: rest)
  end.

Definition random_sample {A} (population : list A) (draws : list nat)
  : result (list A) :=
  sample_loop population (length population) draws.

(** The draws that [randbelow] can return: as many as there are items,
    the [i]-th below [n - i]. *)
Definition valid_draws (n : nat) (draws : list nat) : Prop :=
  length draws = n /\ forall i j, draws !! i = Some j -> (j < n - i)%nat.

(** [shuffle_samples], given the draws of the random generator. *)
Definition shuffle_samples (draws : list nat) (self : VariantRecord.t)
  : result unit * VariantRecord.t :=
  match random_sample (VariantRecord.sample_data self) draws with
  | Err e => (Err e, self)
  | Ok sd =>
      let self := VariantRecord.set_sample_data sd self in
      (Ok (), VariantRecord.set_line
                (VariantRecord.variant_data self ++ VariantRecord.sample_data self) self)
  end.

End Shuffle.

(** ** Notions about remapped genotypes *)

Module Remap.

(** A haplotype token that names an allele of [alleles] which the target
    list holds too. *)
Definition resolves (alleles target : list string) (tok : string) : Prop :=
  exists (hap : Z) (a : string),
    int tok = Ok hap /\ getitem alleles hap = Ok a /\ a ∈ target.

(** [tok'] is the numeral of the first position in [target] of the allele
    that [tok] names in [alleles]. *)
Definition renders (alleles target : list string) (tok tok' : string) : Prop :=
  exists (hap : Z) (a : string) (i : nat),
    int tok = Ok hap /\ getitem alleles hap = Ok a
    /\ tok' = str (Z.of_nat i) /\ target !! i = Some a
    /\ forall j, (j < i)%nat -> target !! j ≠ Some a.

End Remap.

(** ** Notions about sexes *)

Module Sexes.

(** The tokens, compared after lowering, that make a sample male and
    those that make it female. *)
Definition male : list string := ["m"; "male"; "xy"].
Definition female : list string := ["f"; "female"; "xx"].

End Sexes.

(** * Properties *)

(** ** Python built-ins *)

Module PyFacts.

Lemma bind_ok {A B} (a : A) (f : A -> result B) : Ok a ≫= f = f a.
Proof. reflexivity. Qed.

Lemma contains_true `{EqDecision A} (x : A) (l : list A) :
  contains x l = true <-> x ∈ l.
Proof. unfold contains. apply bool_decide_eq_true. Qed.

Lemma contains_false `{EqDecision A} (x : A) (l : list A) :
  contains x l = false <-> x ∉ l.
Proof. unfold contains. apply bool_decide_eq_false. Qed.

(** *** Strings *)

Lemma append_cons (c : ascii) (a b : string) :
  String c a +:+ b = String c (a +:+ b).
Proof. reflexivity. Qed.

Lemma append_empty_l (s : string) : EmptyString +:+ s = s.
Proof. reflexivity. Qed.

Lemma append_empty_r (s : string) : s +:+ EmptyString = s.
Proof. induction s as [|c s IH]; [done|]. now rewrite append_cons, IH. Qed.

Lemma split_nonempty (sep : ascii) (s : string) : split sep s ≠ [].
Proof.
  induction s as [|c s IH]; simpl; [done|].
  case_bool_decide; [done|]. now destruct (split sep s).
Qed.


(** Joining the fields of a split string with the separator restores it. *)
Lemma join_split (sep : ascii) (s : string) :
  join (String sep EmptyString) (split sep s) = s.
Proof.
  induction s as [|c s IH]; simpl; [done|].
  pose proof (split_nonempty sep s) as Hne.
  case_bool_decide as Hc.
  - subst c. destruct (split sep s) as [|w ws]; [done|].
    change (EmptyString +:+ String sep EmptyString +:+ join (String sep EmptyString) (w :: ws)
            = String sep s).
    now rewrite <- IH.
  - destruct (split sep s) as [|w ws]; [done|].
    destruct ws as [|w' ws].
    + simpl in *. now rewrite IH.
    + change (String c w +:+ String sep EmptyString +:+ join (String sep EmptyString) (w' :: ws)
              = String c s).
      rewrite append_cons. f_equal. exact IH.
Qed.

(** *** Integers *)

Lemma digit_not_space (c : ascii) :
  is_digit c = true -> is_int_space c = false.
Proof. destruct c as [[] [] [] [] [] [] [] []]; vm_compute; congruence. Qed.

Lemma pretty_N_char_digit (m : N) :
  (m < 10)%N ->
  is_digit (pretty_N_char m) = true
  /\ digit_value (pretty_N_char m) = Z.of_N m.
Proof.
  intros Hm.
  assert (m = 0 \/ m = 1 \/ m = 2 \/ m = 3 \/ m = 4 \/ m = 5 \/ m = 6
          \/ m = 7 \/ m = 8 \/ m = 9)%N as Hcases by lia.
  repeat destruct Hcases as [-> | Hcases]; try subst m; now vm_compute.
Qed.

Lemma pretty_N_go_digits (x : N) :
  forall s, digits_only s = true -> digits_only (pretty_N_go x s) = true.
Proof.
  induction (N.lt_wf_0 x) as [x _ IH]. intros s Hs.
  destruct (decide (x = 0%N)) as [-> | Hx]; [now rewrite pretty_N_go_0|].
  rewrite pretty_N_go_step by lia. apply IH.
  - apply N.div_lt; lia.
  - simpl. rewrite Hs.
    now destruct (pretty_N_char_digit (x `mod` 10)%N) as [-> _];
      [apply N.mod_lt|].
Qed.

Lemma int_digits_pretty_N_go (x : N) :
  forall s,
    int_digits (pretty_N_go x s) 0 false
    = if decide (x = 0%N) then int_digits s 0 false
      else int_digits s (Z.of_N x) true.
Proof.
  induction (N.lt_wf_0 x) as [x _ IH]. intros s.
  destruct (decide (x = 0%N)) as [-> | Hx]; [now rewrite pretty_N_go_0|].
  rewrite pretty_N_go_step by lia.
  rewrite IH by (apply N.div_lt; lia).
  destruct (pretty_N_char_digit (x `mod` 10)%N) as [Hd Hv]; [now apply N.mod_lt|].
  pose proof (N.div_mod x 10 ltac:(done)) as Hdm.
  destruct (decide ((x `div` 10)%N = 0%N)) as [H0 | H0]; simpl; rewrite Hd, Hv;
    f_equal; lia.
Qed.

Lemma int_rstrip_no_space (s : string) :
  (forall c, contains_char c s = true -> is_int_space c = false) ->
  int_rstrip s = s.
Proof.
  induction s as [|a s IH]; simpl; [done|]. intros Hall.
  rewrite IH.
  - destruct s; [|done]. rewrite (Hall a); [done|].
    simpl. now rewrite bool_decide_eq_true_2.
  - intros c Hc. apply Hall. simpl. rewrite Hc. apply orb_true_r.
Qed.

Lemma digits_only_contains (s : string) (c : ascii) :
  digits_only s = true -> contains_char c s = true -> is_digit c = true.
Proof.
  induction s as [|a s IH]; simpl; [done|].
  intros [Ha Hs]%andb_true_iff. case_bool_decide; [now subst | auto].
Qed.

Lemma int_strip_digits (s : string) :
  digits_only s = true -> int_lstrip (int_rstrip s) = s.
Proof.
  intros Hs. rewrite int_rstrip_no_space.
  - destruct s as [|c d]; [done|]. simpl in *.
    apply andb_true_iff in Hs as [Hc _]. now rewrite (digit_not_space c Hc).
  - intros c Hc. apply digit_not_space. now apply (digits_only_contains s).
Qed.

Lemma count_digits_length (s : string) :
  digits_only s = true -> count_digits s = N.of_nat (String.length s).
Proof.
  induction s as [|c s IH]; [done|].
  intros [Hc Hs]%andb_true_iff. cbn [count_digits String.length].
  rewrite Hc, (IH Hs). lia.
Qed.

Lemma pretty_pos_digits (p : positive) :
  digits_only (pretty (N.pos p)) = true
  /\ int_digits (pretty (N.pos p)) 0 false = Some (Z.pos p).
Proof.
  unfold pretty, pretty_N. rewrite decide_False by done. split.
  - now apply pretty_N_go_digits.
  - rewrite int_digits_pretty_N_go. now rewrite decide_False by done.
Qed.


Lemma int_digits_invalid (c : ascii) (d : string) :
  is_digit c = false -> c ≠ "_"%char ->
  contains_char c d = true ->
  forall acc seen, int_digits d acc seen = None.
Proof.
  intros Hdigit Hunder. induction d as [|a d IH]; simpl; [done|].
  intros Hin acc seen. case_bool_decide as Ha.
  - subst a. rewrite Hdigit. now rewrite (bool_decide_eq_false_2 _ Hunder).
  - simpl in Hin. destruct (is_digit a); [now apply IH|].
    destruct (bool_decide (a = "_"%char) && seen); [now apply IH|done].
Qed.

Lemma int_rstrip_keeps (c : ascii) (s : string) :
  is_int_space c = false -> contains_char c s = true ->
  contains_char c (int_rstrip s) = true.
Proof.
  intros Hc. induction s as [|a s IH]; simpl; [done|].
  case_bool_decide as Ha; simpl.
  - subst a. intros _. rewrite Hc.
    destruct (int_rstrip s); simpl; now rewrite bool_decide_eq_true_2.
  - intros Hs. specialize (IH Hs).
    destruct (int_rstrip s) as [|b r]; [done|].
    change (contains_char c (String a (String b r)) = true).
    simpl. rewrite (bool_decide_eq_false_2 _ Ha). exact IH.
Qed.

Lemma int_lstrip_keeps (c : ascii) (s : string) :
  is_int_space c = false -> contains_char c s = true ->
  contains_char c (int_lstrip s) = true.
Proof.
  intros Hc. induction s as [|a s IH]; simpl; [done|].
  case_bool_decide as Ha; simpl.
  - subst a. intros _. rewrite Hc. simpl. now rewrite bool_decide_eq_true_2.
  - intros Hs. destruct (is_int_space a); [auto|].
    simpl. now rewrite (bool_decide_eq_false_2 _ Ha).
Qed.

(** A character that is neither white space for [int()], nor a digit,
    an underscore or a sign, makes the string no integer literal wherever
    it stands. *)
Lemma int_invalid_char (c : ascii) (s : string) :
  is_int_space c = false -> is_digit c = false ->
  c ≠ "_"%char -> c ≠ "+"%char -> c ≠ "-"%char ->
  contains_char c s = true -> int s = Err ValueError.
Proof.
  intros Hspace Hdigit Hunder Hplus Hminus Hin.
  assert (Hstrip : contains_char c (int_lstrip (int_rstrip s)) = true).
  { apply int_lstrip_keeps; [done|]. now apply int_rstrip_keeps. }
  unfold int. destruct (int_lstrip (int_rstrip s)) as [|a d]; [done|].
  assert (Hall : forall acc seen, int_digits (String a d) acc seen = None)
    by now apply (int_digits_invalid c).
  assert (Hd : a = "-"%char \/ a = "+"%char ->
               forall acc seen, int_digits d acc seen = None).
  { intros Ha. apply (int_digits_invalid c); [done..|].
    simpl in Hstrip. rewrite bool_decide_eq_false_2 in Hstrip; [done|].
    destruct Ha; congruence. }
  destruct a as [[] [] [] [] [] [] [] []];
    rewrite ?Hall, ?Hd by (auto; fail); reflexivity.
Qed.


(** The separators 28-31 are white space for [str.rstrip] and not for
    [int()]. *)
Lemma int_separator (c : ascii) (s : string) :
  (28 <= code c <= 31)%N -> contains_char c s = true ->
  is_space c = true /\ int s = Err ValueError.
Proof.
  intros Hc Hin.
  assert (Hcases : c = ascii_of_N 28 \/ c = ascii_of_N 29
                   \/ c = ascii_of_N 30 \/ c = ascii_of_N 31).
  { rewrite <- (ascii_N_embedding c). unfold code in Hc.
    assert (N_of_ascii c = 28 \/ N_of_ascii c = 29 \/ N_of_ascii c = 30
            \/ N_of_ascii c = 31)%N as Hn by lia.
    destruct Hn as [-> | [-> | [-> | ->]]]; auto. }
  split.
  - destruct Hcases as [-> | [-> | [-> | ->]]]; reflexivity.
  - apply (int_invalid_char c); [..|done];
      destruct Hcases as [-> | [-> | [-> | ->]]]; done.
Qed.

(** A literal of more than 4300 digits is refused. *)
Lemma int_cap (s : string) :
  digits_only s = true -> (4300 < String.length s)%nat ->
  int s = Err ValueError.
Proof.
  intros Hd Hlen. unfold int. rewrite (int_strip_digits _ Hd).
  assert (Hcap : (max_str_digits <? count_digits s)%N = true).
  { rewrite (count_digits_length _ Hd). apply N.ltb_lt. unfold max_str_digits. lia. }
  destruct s as [|c d]; [done|].
  simpl in Hd. apply andb_true_iff in Hd as [Hc _].
  destruct c as [[] [] [] [] [] [] [] []]; try discriminate Hc;
    destruct (int_digits _ 0 false); now rewrite ?Hcap.
Qed.

Lemma int_error (s : string) (e : exn) : int s = Err e -> e = ValueError.
Proof. unfold int. repeat case_match; congruence. Qed.

Lemma getitem_error {A} (l : list A) (i : Z) (e : exn) :
  getitem l i = Err e -> e = IndexError.
Proof. unfold getitem. repeat case_match; congruence. Qed.

Lemma getitem_lookup {A} (l : list A) (i : nat) (x : A) :
  l !! i = Some x -> getitem l (Z.of_nat i) = Ok x.
Proof.
  intros Hx. unfold getitem.
  pose proof (lookup_lt_Some _ _ _ Hx) as Hlt.
  destruct (Z.of_nat i <? 0) eqn:Hneg; [apply Z.ltb_lt in Hneg; lia|].
  replace ((0 <=? Z.of_nat i) && (Z.of_nat i <? Z.of_nat (length l))) with true.
  - now rewrite Nat2Z.id, Hx.
  - symmetry. apply andb_true_iff. split; [apply Z.leb_le | apply Z.ltb_lt]; lia.
Qed.

(** *** Traversals that raise *)


Lemma mapM_error {A B} (P : exn -> Prop) (f : A -> result B) (l : list A) :
  (forall x e, f x = Err e -> P e) ->
  forall e, mapM f l = Err e -> P e.
Proof.
  intros Hf. induction l as [|x l IH]; simpl; [done|].
  intros e. destruct (f x) as [y|e'] eqn:Hx; simpl.
  - destruct (mapM f l) as [k|e''] eqn:Hl; simpl; [done|].
    intros [= <-]. now apply IH.
  - intros [= <-]. now apply (Hf x).
Qed.

Lemma mapM_cons_ok {A B} (f : A -> result B) (x : A) (l : list A)
    (y : B) (k : list B) :
  f x = Ok y -> mapM f l = Ok k -> mapM f (x :: l) = Ok (y :: k).
Proof. intros Hx Hl. simpl. rewrite Hx. simpl. now rewrite Hl. Qed.

End PyFacts.

(** ** The metadata block and the header line *)

Module VCFParserFacts.
Import VCFParser HeaderBlock PyFacts.

(** *** Appending metadata *)

(** C9.  [add_meta] with a key that is, once lowered, one of the reserved
    keys info, filter, format, contig, fileformat raises [ValueError] and
    leaves the parser (so its metadata) as it was.  With any other key, a
    rendered line [##key=value] that the metadata already hold is ignored:
    the call returns and the parser is as it was.  A rendered line that
    they do not hold is appended: the call returns, the metadata of the
    parser are the old ones followed by that line, and no other attribute
    has changed. *)
Theorem add_meta_reserved_duplicate_append (key value : string) (self : t) :
  (lower key ∈ ["info"; "filter"; "format"; "contig"; "fileformat"] ->
     add_meta key value self = (Err ValueError, self))
  /\ (lower key ∉ ["info"; "filter"; "format"; "contig"; "fileformat"] ->
      ("##" +:+ key +:+ "=" +:+ value) ∈ metadata self ->
      add_meta key value self = (Ok (), self))
  /\ (lower key ∉ ["info"; "filter"; "format"; "contig"; "fileformat"] ->
      ("##" +:+ key +:+ "=" +:+ value) ∉ metadata self ->
      (add_meta key value self).1 = Ok ()
      /\ metadata (add_meta key value self).2
         = (metadata self ++ ["##" +:+ key +:+ "=" +:+ value])%list
      /\ length (metadata (add_meta key value self).2)
         = S (length (metadata self))
      /\ last (metadata (add_meta key value self).2)
         = Some ("##" +:+ key +:+ "=" +:+ value)
      /\ vcf (add_meta key value self).2 = vcf self
      /\ beginning (add_meta key value self).2 = beginning self
      /\ header (add_meta key value self).2 = header self
      /\ samples (add_meta key value self).2 = samples self
      /\ next_line (add_meta key value self).2 = next_line self).
Proof.
  change ["info"; "filter"; "format"; "contig"; "fileformat"] with reserved.
  change ("##" +:+ key +:+ "=" +:+ value) with (meta_line key value).
  unfold add_meta. split; [|split].
  - intros Hin. apply contains_true in Hin. now rewrite Hin.
  - intros Hout Hdup. apply contains_false in Hout. apply contains_true in Hdup.
    now rewrite Hout, Hdup.
  - intros Hout Hnew. apply contains_false in Hout. apply contains_false in Hnew.
    rewrite Hout, Hnew. cbn.
    repeat split; [now rewrite length_app, Nat.add_1_r | apply last_snoc].
Qed.

Lemma add_meta_reserved_duplicate_append_witness :
  let p := Inputs.one_sample_parser in
  let q := set_metadata ["##fileformat=VCFv4.2"; "##source=CoLoRS"] p in
  add_meta "FileFormat" "VCFv4.3" p = (Err ValueError, p)
  /\ add_meta "source" "CoLoRS" q = (Ok (), q)
  /\ (add_meta "source" "CoLoRS" p).1 = Ok ()
  /\ metadata (add_meta "source" "CoLoRS" p).2
     = ["##fileformat=VCFv4.2"; "##source=CoLoRS"].
Proof.
  split; [| split; [| split]].
  - apply (proj1 (add_meta_reserved_duplicate_append "FileFormat" "VCFv4.3" _)).
    apply (bool_decide_unpack _). vm_compute. exact I.
  - apply (proj1 (proj2 (add_meta_reserved_duplicate_append "source" "CoLoRS" _)));
      apply (bool_decide_unpack _); vm_compute; exact I.
  - apply (proj2 (proj2 (add_meta_reserved_duplicate_append "source" "CoLoRS"
                           Inputs.one_sample_parser)));
      apply (bool_decide_unpack _); vm_compute; exact I.
  - apply (proj1 (proj2 (proj2 (proj2 (add_meta_reserved_duplicate_append
                                        "source" "CoLoRS"
                                        Inputs.one_sample_parser))
                                  ltac:(apply (bool_decide_unpack _); vm_compute; exact I)
                                  ltac:(apply (bool_decide_unpack _); vm_compute; exact I)))).
Defined.

Example init_one_sample_file :
  init Inputs.one_sample_file = Ok Inputs.one_sample_parser.
Proof. vm_compute. reflexivity. Qed.

(** *** Renaming the samples *)

Lemma after_word_run_split (s : string) :
  exists w, s = w +:+ after_word_run s /\ all_word w = true.
Proof.
  induction s as [|c s [w [Hs Hw]]]; simpl.
  - now exists EmptyString.
  - destruct (is_word c) eqn:Hc.
    + exists (String c w). split.
      * rewrite append_cons. f_equal. exact Hs.
      * simpl. now rewrite Hc, Hw.
    + now exists EmptyString.
Qed.

Lemma after_word_run_all (s : string) :
  all_word s = true -> after_word_run s = EmptyString.
Proof.
  induction s as [|c s IH]; simpl; [done|].
  intros [Hc Hs]%andb_true_iff. rewrite Hc. auto.
Qed.

Lemma after_word_run_stop (w : string) (d : ascii) (r : string) :
  all_word w = true -> is_word d = false ->
  after_word_run (w +:+ String d r) = String d r.
Proof.
  intros Hw Hd. induction w as [|c w IH].
  - rewrite append_empty_l. simpl. now rewrite Hd.
  - simpl in Hw. apply andb_true_iff in Hw as [Hc Hw].
    rewrite append_cons. simpl. rewrite Hc. auto.
Qed.

(** What the compiled pattern accepts, against the wording of the
    requirement: an identifier, or an identifier followed by one newline. *)
Lemma sample_pattern_match_iff (name : string) :
  sample_pattern_match name = true <->
  is_identifier name = true
  \/ exists w, name = w +:+ nl /\ is_identifier w = true.
Proof.
  split.
  - destruct name as [|c s]; simpl; [done|].
    intros [Hc Hr]%andb_true_iff.
    destruct (after_word_run_split s) as [w [Hs Hw]].
    destruct (after_word_run s) as [|d [|? ?]]; try done.
    + left. rewrite Hc. simpl. rewrite Hs. now rewrite append_empty_r.
    + right. apply bool_decide_eq_true in Hr as ->.
      exists (String c w). split; [now rewrite append_cons, Hs|].
      simpl. now rewrite Hc.
  - intros [Hid | [w [-> Hid]]].
    + destruct name as [|c s]; simpl in *; [done|].
      apply andb_true_iff in Hid as [Hc Hs].
      now rewrite Hc, (after_word_run_all _ Hs).
    + destruct w as [|c w]; simpl in Hid; [done|].
      apply andb_true_iff in Hid as [Hc Hw]. rewrite append_cons. simpl.
      rewrite Hc. simpl.
      unfold nl. now rewrite (after_word_run_stop w newline EmptyString Hw).
Qed.

(** What [change_sample_names] does in each of its three branches. *)
Lemma change_sample_names_cases (sample_names : list string) (self : t) :
  (length sample_names ≠ length (samples self) ->
     change_sample_names sample_names self = (Err ValueError, self)) /\
  (Exists (fun n => sample_pattern_match n = false) sample_names ->
     change_sample_names sample_names self = (Err ValueError, self)) /\
  (forall h, length sample_names = length (samples self) ->
     Forall (fun n => sample_pattern_match n = true) sample_names ->
     header self = Some h ->
     change_sample_names sample_names self
     = (Ok (), set_header (take 9 h ++ sample_names)
                 (set_samples sample_names self))).
Proof.
  unfold change_sample_names. repeat split.
  - intros Hlen. now rewrite bool_decide_eq_true_2.
  - intros Hbad. case_bool_decide; [done|].
    replace (forallb sample_pattern_match sample_names) with false; [done|].
    symmetry. apply not_true_iff_false. rewrite forallb_forall.
    intros Hall. apply Exists_exists in Hbad as [n [Hin Hn]].
    apply list_elem_of_In in Hin. rewrite (Hall n Hin) in Hn. done.
  - intros h Hlen Hall Hh. rewrite bool_decide_eq_false_2 by auto.
    replace (forallb sample_pattern_match sample_names) with true.
    + simpl. now rewrite Hh.
    + symmetry. apply forallb_forall. intros n Hin.
      rewrite Forall_forall in Hall. apply Hall. now apply list_elem_of_In.
Qed.

(** C7.  The name [S1] followed by a newline is not made of letters,
    digits and underscores only, yet [change_sample_names] accepts it and
    writes it into the header line: [$] in the compiled pattern also
    matches just before a final newline. *)
Theorem change_sample_names_accepts_trailing_newline :
  is_identifier ("S1" +:+ nl) = false
  /\ length ["S1" +:+ nl] = length (samples Inputs.one_sample_parser)
  /\ change_sample_names ["S1" +:+ nl] Inputs.one_sample_parser
     = (Ok (),
        set_header (header_columns ++ ["S1" +:+ nl])
          (set_samples ["S1" +:+ nl] Inputs.one_sample_parser)).
Proof. vm_compute. repeat split. Qed.


(** *** Reading the header block *)

Lemma parse_header_line_bad (line : string) (self : t) :
  bad_header line -> fst (parse_header_line line self) = Err IOError.
Proof.
  unfold parse_header_line, bad_header, wrong_columns, no_samples, columns.
  intros Hbad. case_bool_decide; [done|]. simpl.
  case_bool_decide; [done|]. tauto.
Qed.

Lemma parse_header_line_good (line : string) (self : t) :
  ~ bad_header line -> fst (parse_header_line line self) = Ok ().
Proof.
  unfold parse_header_line, bad_header, wrong_columns, no_samples, columns.
  intros Hgood. case_bool_decide; [tauto|]. simpl.
  case_bool_decide; [tauto|done].
Qed.

Lemma bad_header_dec (line : string) : {bad_header line} + {~ bad_header line}.
Proof.
  unfold bad_header, wrong_columns, no_samples.
  destruct (decide (take 9 (columns line) = header_columns));
    destruct (decide (length (drop 9 (columns line)) < 1)%nat); tauto.
Qed.

Local Arguments startswith : simpl never.

Lemma header_lines_cons (line : string) (blk : list string) :
  header_lines (line :: blk)
  = if startswith "##" line then header_lines blk else line :: header_lines blk.
Proof.
  unfold header_lines. rewrite filter_cons.
  destruct (startswith "##" line); now case_decide.
Qed.

(** The loop raises exactly when one of the single-marker lines of the
    block it reads is a bad header line, and then it raises [IOError]. *)
Lemma read_block_raises (rest : list string) :
  forall (line : string) (self : t) (e : exn),
    read_block line rest self = Err e <->
    e = IOError
    /\ Exists bad_header (header_lines (leading (line :: (rstrip <$> rest)))).
Proof.
  induction rest as [|l rest IH]; intros line self e; simpl;
    destruct (startswith "#" line) eqn:Hhash;
    try (split; [discriminate | intros [_ H]; inversion H]);
    rewrite header_lines_cons;
    destruct (startswith "##" line) eqn:Hmeta.
  - split; [discriminate | intros [_ H]; inversion H].
  - destruct (bad_header_dec line) as [Hbad | Hgood].
    + pose proof (parse_header_line_bad line self Hbad) as Hp.
      destruct (parse_header_line line self) as [r self']. simpl in Hp. subst r.
      split; [intros [= <-]; split; [done | now left] | now intros [-> _]].
    + pose proof (parse_header_line_good line self Hgood) as Hp.
      destruct (parse_header_line line self) as [r self']. simpl in Hp. subst r.
      split; [discriminate|]. intros [_ H].
      apply Exists_cons in H as [H|H]; [done|]. now apply Exists_nil in H.
  - apply IH.
  - destruct (bad_header_dec line) as [Hbad | Hgood].
    + pose proof (parse_header_line_bad line self Hbad) as Hp.
      destruct (parse_header_line line self) as [r self']. simpl in Hp. subst r.
      split; [intros [= <-]; split; [done | now left] | now intros [-> _]].
    + pose proof (parse_header_line_good line self Hgood) as Hp.
      destruct (parse_header_line line self) as [r self']. simpl in Hp. subst r.
      rewrite IH. rewrite Exists_cons. tauto.
Qed.

Lemma init_raises (stream : list string) (e : exn) :
  init stream = Err e <->
  e = IOError
  /\ (startswith "#" (first_line stream) = false
      \/ Exists bad_header (header_lines (block stream))).
Proof.
  unfold init, first_line, block.
  destruct stream as [|l rest]; simpl.
  - change (rstrip "") with EmptyString. 
    split; [intros [= <-]; auto | now intros [-> _]].
  - destruct (startswith "#" (rstrip l)) eqn:Hhash; simpl.
    + rewrite read_block_raises. simpl. rewrite Hhash. 
      split; [intros [-> H]; auto | intros [-> [H|H]]; [done | auto]].
    + split; [intros [= <-]; auto | now intros [-> _]].
Qed.

(** C6.  [__init__] raises exactly when the first line does not start
    with the marker or some single-marker line of the leading block has
    wrong fixed columns or no sample column, and what it raises then is
    [IOError]; the number of header lines plays no part. *)
Theorem init_raises_iff_malformed (stream : list string) :
  (raises (init stream) <-> malformed stream)
  /\ (forall e, init stream = Err e -> e = IOError).
Proof.
  split; [split|].
  - intros [e He]. apply init_raises in He as [_ He]. exact He.
  - intros Hm. exists IOError. apply init_raises. split; [done | exact Hm].
  - intros e He. now apply init_raises in He as [-> _].
Qed.

(** A second, well-formed header line is accepted: it replaces the first
    one, so a block with two header lines is not rejected. *)
Lemma init_two_headers_not_as_described :
  ~ (raises (init Inputs.two_headers_file)
     <-> malformed_as_described Inputs.two_headers_file).
Proof.
  intros [_ Hraise].
  assert (Hm : malformed_as_described Inputs.two_headers_file).
  { right; right; right. vm_compute. lia. }
  destruct (Hraise Hm) as [e He]. vm_compute in He. discriminate.
Qed.

Example init_two_headers_file :
  header <$> init Inputs.two_headers_file
  = Ok (Some (header_columns ++ ["T1"])%list).
Proof. vm_compute. reflexivity. Qed.

End VCFParserFacts.


(** ** Variant records *)

Module VariantRecordFacts.
Import VariantRecord RecordState PyFacts.

(** The records of [Inputs] are those that [__init__] builds. *)
Lemma init_record (format : string) (samples : list string) :
  init (["chrX"; "100"; "."; "A"; "T"; "."; "PASS"; "."; format] ++ samples)
  = Ok (Inputs.record format samples).
Proof.
  unfold init.
  set (variant_line := (_ ++ samples)%list).
  assert (Hget : forall (i : nat) (x : string),
             variant_line !! i = Some x ->
             getitem variant_line (Z.of_nat i) = Ok x)
    by (intros i x; apply getitem_lookup).
  change (getitem variant_line 0) with (getitem variant_line (Z.of_nat 0)).
  change (getitem variant_line 1) with (getitem variant_line (Z.of_nat 1)).
  change (getitem variant_line 2) with (getitem variant_line (Z.of_nat 2)).
  change (getitem variant_line 3) with (getitem variant_line (Z.of_nat 3)).
  change (getitem variant_line 4) with (getitem variant_line (Z.of_nat 4)).
  change (getitem variant_line 7) with (getitem variant_line (Z.of_nat 7)).
  change (getitem variant_line 8) with (getitem variant_line (Z.of_nat 8)).
  rewrite (Hget 0%nat "chrX" eq_refl), (Hget 1%nat "100" eq_refl),
    (Hget 2%nat "." eq_refl), (Hget 3%nat "A" eq_refl), (Hget 4%nat "T" eq_refl),
    (Hget 7%nat "." eq_refl), (Hget 8%nat format eq_refl).
  reflexivity.
Qed.

Lemma set_line_consistent (self : t) :
  consistent self ->
  set_line (variant_data self ++ sample_data self) self = self.
Proof. unfold consistent. destruct self; simpl. now intros ->. Qed.

(** *** Regions *)

Lemma in_regions_iff (chrom : string) (p : Z) (regions : list region) :
  in_regions chrom p regions = true <->
  exists c s e, (c, s, e) ∈ regions /\ chrom = c /\ s < p /\ p <= e.
Proof.
  induction regions as [|[[c s] e] regions IH]; simpl.
  - split; [done|]. intros (c & s & e & Hin & _). now apply elem_of_nil in Hin.
  - destruct (bool_decide (chrom = c) && ((s <? p) && (p <=? e))) eqn:Hhere.
    + split; [intros _|done]. exists c, s, e.
      apply andb_true_iff in Hhere as [Hc [Hs He]%andb_true_iff].
      apply bool_decide_eq_true in Hc. apply Z.ltb_lt in Hs. apply Z.leb_le in He.
      split; [left|done].
    + rewrite IH. split.
      * intros (c' & s' & e' & Hin & H). exists c', s', e'. split; [now right|done].
      * intros (c' & s' & e' & Hin & Hc & Hs & He).
        apply elem_of_cons in Hin as [[= -> -> ->] | Hin].
        -- exfalso. apply not_true_iff_false in Hhere. apply Hhere.
           apply andb_true_iff. split; [now apply bool_decide_eq_true|].
           apply andb_true_iff. split; lia.
        -- exists c', s', e'. auto.
Qed.

Section ploidy_facts.
Context (lm : libm).

Lemma fix_samples_original (sexes : list string) (idxs : list nat) :
  forall self,
    original_sample_data (snd (fix_samples lm sexes idxs self))
    = original_sample_data self.
Proof.
  induction idxs as [|i idxs IH]; intros self; simpl; [done|].
  destruct (getitem sexes (Z.of_nat i)) as [s|e]; [|done].
  destruct (contains (lower s) ["m"; "male"; "xy"]).
  - destruct (convert_to_haploid lm i self ≫= join_values ":"); [|done].
    now rewrite IH.
  - destruct (contains (lower s) ["f"; "female"; "xx"]); simpl; [apply IH|done].
Qed.

Lemma fix_ploidy_original (sexes : list string) (regions : list region) (self : t) :
  original_sample_data (snd (fix_ploidy lm sexes regions self))
  = original_sample_data self.
Proof.
  unfold fix_ploidy. repeat case_bool_decide; try done.
  destruct (int (pos self)); [|done].
  destruct (in_regions (chrom self) a regions); [|done].
  pose proof (fix_samples_original sexes (seq 0 (length (sample_data self))) self) as Horig.
  destruct (fix_samples lm sexes (seq 0 (length (sample_data self))) self) as [[?|?] self'];
    simpl in *; done.
Qed.

Lemma fix_samples_frame (sexes : list string) (idxs : list nat) :
  forall self,
    line (snd (fix_samples lm sexes idxs self)) = line self
    /\ variant_data (snd (fix_samples lm sexes idxs self)) = variant_data self.
Proof.
  induction idxs as [|i idxs IH]; intros self; simpl; [done|].
  destruct (getitem sexes (Z.of_nat i)) as [s|e]; [|done].
  destruct (contains (lower s) ["m"; "male"; "xy"]).
  - destruct (convert_to_haploid lm i self ≫= join_values ":") as [new_sample|];
      [|done].
    apply (IH (set_sample_data (<[i:=new_sample]> (sample_data self)) self)).
  - destruct (contains (lower s) ["f"; "female"; "xx"]); simpl; [apply IH|done].
Qed.

(** The line invariant holds of a new record and is kept by
    [update_genotypes] and by [fix_ploidy], however they end. *)
Lemma init_consistent (variant_line : list string) (self : t) :
  init variant_line = Ok self -> consistent self /\ line_invariant self.
Proof.
  unfold init. intros H.
  repeat match type of H with
         | (?m ≫= _) = Ok _ =>
             destruct m as [?s|]; [rewrite bind_ok in H | simpl in H; discriminate]
         end.
  cbv [mret result_ret] in H. injection H as <-.
  unfold line_invariant, consistent. simpl.
  now rewrite take_drop.
Qed.

Lemma update_genotypes_invariant (ref : string) (alts : list string) (self : t) :
  line_invariant self -> line_invariant (snd (update_genotypes ref alts self)).
Proof.
  unfold update_genotypes. intros Hinv.
  match goal with |- context [match ?c with Ok _ => _ | Err _ => _ end] =>
    destruct c end; [|exact Hinv].
  intros _. reflexivity.
Qed.

Lemma fix_ploidy_invariant (sexes : list string) (regions : list region) (self : t) :
  line_invariant self -> line_invariant (snd (fix_ploidy lm sexes regions self)).
Proof.
  intros Hinv. unfold fix_ploidy. repeat case_bool_decide; try exact Hinv.
  destruct (int (pos self)); [|exact Hinv].
  assert (Hself : consistent self) by (apply Hinv; apply dec_stable; congruence).
  destruct (in_regions (chrom self) a regions); [|intros _; reflexivity].
  pose proof (fix_samples_frame sexes (seq 0 (length (sample_data self))) self)
    as [Hline Hvd].
  pose proof (fix_samples_original sexes (seq 0 (length (sample_data self))) self)
    as Horig.
  destruct (fix_samples lm sexes (seq 0 (length (sample_data self))) self)
    as [[?|?] self']; simpl in *; [intros _; reflexivity|].
  intros Hsame. unfold consistent in *.
  rewrite Hline, Hvd, Hsame, Horig, Hself. f_equal. apply dec_stable. congruence.
Qed.

(** C5.  A position is inside the regions exactly when some region of the
    list, not only the first, has the same chromosome and [start < p <= end];
    and [fix_ploidy] leaves a record whose position is in no region as it
    was. *)
Theorem in_regions_all_and_fix_ploidy_outside :
  (forall (chrom : string) (p : Z) (regions : list region),
     in_regions chrom p regions = true <->
     exists c s e, (c, s, e) ∈ regions /\ chrom = c /\ s < p /\ p <= e)
  /\ (forall (self : t) (sexes : list string) (regions : list region) (p : Z),
        line_invariant self ->
        int (pos self) = Ok p ->
        in_regions (chrom self) p regions = false ->
        snd (fix_ploidy lm sexes regions self) = self).
Proof.
  split; [apply in_regions_iff|].
  intros self sexes regions p Hinv Hp Hout. unfold fix_ploidy.
  repeat case_bool_decide; try done.
  rewrite Hp, Hout. simpl. apply set_line_consistent, Hinv.
  apply dec_stable. congruence.
Qed.

(** C4.  [fix_ploidy] raises [ValueError], changing nothing, whenever the
    current sample data differs from the snapshot taken at parse time; so
    a second call on a record whose sample data the first call changed
    raises [ValueError], whatever its arguments. *)
Theorem fix_ploidy_rejects_modified_record
    (sexes : list string) (regions : list region) (self : t) :
  (sample_data self ≠ original_sample_data self ->
     fix_ploidy lm sexes regions self = (Err ValueError, self))
  /\ (forall (sexes' : list string) (regions' : list region),
        let self' := snd (fix_ploidy lm sexes regions self) in
        sample_data self' ≠ sample_data self ->
        fix_ploidy lm sexes' regions' self' = (Err ValueError, self')).
Proof.
  assert (Hfirst : forall sx rg s,
             sample_data s ≠ original_sample_data s ->
             fix_ploidy lm sx rg s = (Err ValueError, s)).
  { intros sx rg s Hne. unfold fix_ploidy.
    case_bool_decide; [done|]. case_bool_decide; [done|]. congruence. }
  split; [apply Hfirst|].
  intros sexes' regions' self' Hmod. apply Hfirst.
  subst self'. rewrite fix_ploidy_original.
  intros Heq. apply Hmod. rewrite Heq. clear Hfirst Heq.
  revert Hmod. unfold fix_ploidy. repeat case_bool_decide; done.
Qed.

End ploidy_facts.

(** *** Remapping genotypes *)


Section remap.
Context (self : t) (alleles' : list string).

Let to_allele (tok : string) : result string :=
  hap ← int tok; getitem (alleles self) hap.
Let to_index (hap : string) : result nat := index hap alleles'.
Let numeral (i : nat) : string := str (Z.of_nat i).



End remap.





(** *** Haploid conversion *)

Section conversion.
Context (lm : libm).

(** C1.  When ["PL"] is a format key, [convert_to_haploid] never returns:
    with three values in the sample's PL field the first exception is the
    [TypeError] of dividing the first value, still a [str], by [-10]; any
    other PL field is rejected before. *)
Theorem convert_to_haploid_pl_raises (sample_idx : nat) (self : t) :
  contains "PL" (format_keys self) = true ->
  raises (convert_to_haploid lm sample_idx self).
Proof.
  intros Hpl. unfold convert_to_haploid, format_keys in *. rewrite Hpl.
  destruct (getitem (sample_data self) (Z.of_nat sample_idx)) as [s|e];
    [|now exists e].
  rewrite bind_ok.
  set (d := dict_zip _ _). unfold convert_pl.
  destruct (dict_get d "PL" ≫= str_method) as [pl|e]; [|now exists e].
  rewrite bind_ok.
  match goal with
  | |- raises ((?m ≫= _) ≫= _) => destruct m as [b|e]; [|now exists e]
  end.
  rewrite bind_ok. case_bool_decide as Hlen; [now exists ValueError|].
  destruct (split "," pl) as [|pl0 pls]; [done|].
  now exists TypeError.
Qed.

(** With three values in the PL field and a genotype to read, the
    exception is the [TypeError] of the division. *)
Lemma convert_pl_three_values (self : t) (sample_dict : gmap string value)
    (pl gt : string) :
  sample_dict !! "PL" = Some (VStr pl) ->
  sample_dict !! "GT" = Some (VStr gt) ->
  length (split "," pl) = 3%nat ->
  convert_pl lm self sample_dict = Err TypeError.
Proof.
  intros Hpl Hgt Hlen. unfold convert_pl, dict_get. rewrite Hpl, Hgt. simpl.
  rewrite Hlen. simpl.
  destruct (split "," pl) as [|pl0 pls]; [discriminate|]. reflexivity.
Qed.

(** On a tie the AD branch returns the dictionary as it received it: the
    no-call token is assigned to the local [gt] and goes nowhere. *)
Lemma convert_ad_tie (sample_dict : gmap string value)
    (ad : string) (ads : list Z) (max_ad : Z) :
  sample_dict !! "AD" = Some (VStr ad) ->
  mapM int (split "," ad) = Ok ads ->
  max ads = Ok max_ad ->
  count max_ad ads ≠ 1%nat ->
  convert_ad sample_dict = Ok sample_dict.
Proof.
  intros Hget Hads Hmax Htie. unfold convert_ad, dict_get. rewrite Hget. simpl.
  rewrite Hads, bind_ok, Hmax, bind_ok. now rewrite bool_decide_eq_true_2.
Qed.

(** With a single maximum the genotype becomes its position. *)
Lemma convert_ad_unique (sample_dict : gmap string value)
    (ad : string) (ads : list Z) (max_ad : Z) (gt : nat) :
  sample_dict !! "AD" = Some (VStr ad) ->
  mapM int (split "," ad) = Ok ads ->
  max ads = Ok max_ad ->
  count max_ad ads = 1%nat ->
  index max_ad ads = Ok gt ->
  convert_ad sample_dict = Ok (<["GT" := VStr (str (Z.of_nat gt))]> sample_dict).
Proof.
  intros Hget Hads Hmax Hone Hidx. unfold convert_ad, dict_get. rewrite Hget. simpl.
  rewrite Hads, bind_ok, Hmax, bind_ok. rewrite bool_decide_eq_false_2 by lia.
  now rewrite Hidx.
Qed.

(** C2.  With FORMAT [GT:AD] and the tied depths [10,10], haploid
    conversion of a male sample returns the sample's fields as they were,
    genotype [0/1] included, and [fix_ploidy] leaves the record unchanged;
    with the depths [3,10] the genotype becomes [1]. *)
Theorem convert_to_haploid_ad_tie_keeps_genotype :
  convert_to_haploid lm 0 (Inputs.record "GT:AD" ["0/1:10,10"])
    = Ok [VStr "0/1"; VStr "10,10"]
  /\ fix_ploidy lm ["male"] Inputs.par (Inputs.record "GT:AD" ["0/1:10,10"])
    = (Ok (), Inputs.record "GT:AD" ["0/1:10,10"])
  /\ convert_to_haploid lm 0 (Inputs.record "GT:AD" ["0/1:3,10"])
    = Ok [VStr "1"; VStr "3,10"].
Proof. repeat split; vm_compute; reflexivity. Qed.

(** C3.  When ["DR"] and ["DV"] are format keys and neither ["PL"] nor
    ["AD"] is, [convert_to_haploid] never returns: the local [max_ad],
    which only the AD branch assigns, is read before any assignment
    ([UnboundLocalError]), unless reading the two depths fails first. *)
Theorem convert_to_haploid_dr_dv_raises (sample_idx : nat) (self : t) :
  contains "PL" (format_keys self) = false ->
  contains "AD" (format_keys self) = false ->
  contains "DR" (format_keys self) = true ->
  contains "DV" (format_keys self) = true ->
  raises (convert_to_haploid lm sample_idx self).
Proof.
  intros Hpl Had Hdr Hdv. unfold convert_to_haploid, format_keys in *.
  rewrite Hpl, Had, Hdr, Hdv.
  destruct (getitem (sample_data self) (Z.of_nat sample_idx)) as [s|e];
    [|now exists e].
  rewrite bind_ok.
  set (d := dict_zip _ _). cbn [andb].
  unfold convert_dr_dv.
  destruct (dict_get d "DR" ≫= int_of_value) as [dr|e]; [|now exists e].
  rewrite bind_ok.
  destruct (dict_get d "DV" ≫= int_of_value) as [dv|e]; [|now exists e].
  now exists UnboundLocalError.
Qed.

(** With two depths that read as integers, the exception is the
    [UnboundLocalError] of [max_ad]. *)
Lemma convert_dr_dv_unbound (sample_dict : gmap string value) (dr dv : Z) :
  dict_get sample_dict "DR" ≫= int_of_value = Ok dr ->
  dict_get sample_dict "DV" ≫= int_of_value = Ok dv ->
  convert_dr_dv None sample_dict = Err UnboundLocalError.
Proof. intros Hdr Hdv. unfold convert_dr_dv. now rewrite Hdr, bind_ok, Hdv. Qed.

End conversion.

Example fix_ploidy_pl_type_error (lm : libm) :
  fix_ploidy lm ["male"] Inputs.par (Inputs.record "GT:PL" ["0/0:0,3,30"])
  = (Err TypeError, Inputs.record "GT:PL" ["0/0:0,3,30"]).
Proof. vm_compute. reflexivity. Qed.

Example fix_ploidy_dr_dv_unbound (lm : libm) :
  fix_ploidy lm ["male"] Inputs.par (Inputs.record "GT:DR:DV" ["0/1:5:3"])
  = (Err UnboundLocalError, Inputs.record "GT:DR:DV" ["0/1:5:3"]).
Proof. vm_compute. reflexivity. Qed.


(** *** Instances of the statements *)

Lemma convert_to_haploid_pl_raises_witness :
  raises (convert_to_haploid Inputs.libm_nan 0
            (Inputs.record "GT:PL" ["0/0:0,3,30"])).
Proof. apply convert_to_haploid_pl_raises. vm_compute. reflexivity. Defined.

Lemma convert_to_haploid_dr_dv_raises_witness :
  raises (convert_to_haploid Inputs.libm_nan 0
            (Inputs.record "GT:DR:DV" ["0/1:5:3"])).
Proof. apply convert_to_haploid_dr_dv_raises; vm_compute; reflexivity. Defined.

Lemma fix_ploidy_rejects_modified_record_witness :
  let r := Inputs.record "GT:AD" ["0/1:3,10"] in
  let r' := snd (fix_ploidy Inputs.libm_nan ["M"] Inputs.par r) in
  sample_data r' = ["1:3,10"]
  /\ fix_ploidy Inputs.libm_nan ["M"] Inputs.par r' = (Err ValueError, r')
  /\ fix_ploidy Inputs.libm_nan ["F"] [] r' = (Err ValueError, r').
Proof.
  split; [vm_compute; reflexivity|]. split.
  - apply (proj2 (fix_ploidy_rejects_modified_record Inputs.libm_nan ["M"] Inputs.par
                    (Inputs.record "GT:AD" ["0/1:3,10"])) ["M"] Inputs.par).
    vm_compute. discriminate.
  - apply (proj1 (fix_ploidy_rejects_modified_record Inputs.libm_nan ["F"] [] _)).
    vm_compute. discriminate.
Defined.

Lemma in_regions_all_and_fix_ploidy_outside_witness :
  let r := Inputs.record "GT:AD" ["0/1:3,10"] in
  in_regions "chrX" 100 Inputs.par = true
  /\ snd (fix_ploidy Inputs.libm_nan ["M"] [("chr1", 0, 500); ("chrX", 100, 200)] r) = r.
Proof.
  split.
  - apply (proj1 (in_regions_all_and_fix_ploidy_outside Inputs.libm_nan)).
    exists "chrX", 99, 200. split; [right; left | split; [reflexivity | lia]].
  - apply (proj2 (in_regions_all_and_fix_ploidy_outside Inputs.libm_nan)) with (p := 100).
    + intros _. reflexivity.
    + vm_compute. reflexivity.
    + vm_compute. reflexivity.
Defined.




End VariantRecordFacts.


(** ** More on the built-ins *)

Module BuiltinFacts.
Import PyFacts.

Lemma rstrip_idempotent (s : string) : rstrip (rstrip s) = rstrip s.
Proof.
  induction s as [|c s IH]; [done|]. simpl.
  destruct (rstrip s) as [|b r] eqn:Hr.
  - destruct (is_space c) eqn:Hc; [done|]. simpl. now rewrite Hc.
  - change (rstrip (String c (String b r)) = String c (String b r)).
    simpl in IH. simpl. now rewrite IH.
Qed.

(** A string that ends in white space to be removed, once a line
    terminator is appended, strips to the same. *)
Lemma rstrip_append_nl (s : string) : rstrip (s +:+ nl) = rstrip s.
Proof.
  induction s as [|c s IH]; [reflexivity|].
  rewrite append_cons. simpl. now rewrite IH.
Qed.

Lemma rstrip_cons (c : ascii) (s : string) :
  is_space c = false -> rstrip s = s -> rstrip (String c s) = String c s.
Proof.
  intros Hc Hs. simpl. rewrite Hs. destruct s; [now rewrite Hc | done].
Qed.

Lemma split_length_pos (sep : ascii) (s : string) :
  (0 < length (split sep s))%nat.
Proof.
  pose proof (split_nonempty sep s). destruct (split sep s); [done | simpl; lia].
Qed.

(** No field of a split string contains the separator. *)
Lemma split_no_sep (sep : ascii) (s : string) :
  Forall (fun w => contains_char sep w = false) (split sep s).
Proof.
  induction s as [|c s IH]; simpl; [now repeat constructor|].
  case_bool_decide as Hc.
  - now constructor.
  - pose proof (split_nonempty sep s) as Hne.
    destruct (split sep s) as [|w ws]; [done|].
    apply Forall_cons in IH as [Hw Hws]. constructor; [|done].
    simpl. now rewrite (bool_decide_eq_false_2 _ Hc).
Qed.

Lemma split_cons_no_sep (sep c : ascii) (s : string) :
  c ≠ sep ->
  split sep (String c s)
  = match split sep s with w :: ws => String c w :: ws | [] => [String c EmptyString] end.
Proof. intros Hc. simpl. now rewrite bool_decide_eq_false_2. Qed.

Lemma split_word (sep : ascii) (w : string) :
  contains_char sep w = false -> split sep w = [w].
Proof.
  induction w as [|c w IH]; simpl; [done|].
  intros [Hc Hw]%orb_false_iff. apply bool_decide_eq_false in Hc.
  rewrite bool_decide_eq_false_2 by done. now rewrite (IH Hw).
Qed.

Lemma split_word_append (sep : ascii) (w s : string) :
  contains_char sep w = false ->
  split sep (w +:+ String sep s) = w :: split sep s.
Proof.
  induction w as [|c w IH]; intros Hw.
  - rewrite append_empty_l. simpl. now rewrite bool_decide_eq_true_2.
  - simpl in Hw. apply orb_false_iff in Hw as [Hc Hw].
    apply bool_decide_eq_false in Hc.
    rewrite append_cons, split_cons_no_sep by done. now rewrite (IH Hw).
Qed.

(** Splitting what was joined gives the fields back, when there is at
    least one field and none contains the separator. *)
Lemma split_join (sep : ascii) (l : list string) :
  l ≠ [] ->
  Forall (fun w => contains_char sep w = false) l ->
  split sep (join (String sep EmptyString) l) = l.
Proof.
  induction l as [|w l IH]; [done|]. intros _ Hall.
  apply Forall_cons in Hall as [Hw Hl].
  destruct l as [|w' l].
  - simpl. now apply split_word.
  - change (join (String sep EmptyString) (w :: w' :: l))
      with (w +:+ String sep EmptyString +:+ join (String sep EmptyString) (w' :: l)).
    change (String sep EmptyString +:+ ?x) with (String sep x).
    rewrite split_word_append by done. now rewrite IH.
Qed.

Lemma contains_char_append (c : ascii) (a b : string) :
  contains_char c (a +:+ b) = contains_char c a || contains_char c b.
Proof.
  induction a as [|x a IH]; [reflexivity|].
  rewrite append_cons. simpl. rewrite IH. now rewrite orb_assoc.
Qed.

Lemma contains_char_join (c : ascii) (sep : string) (l : list string) :
  contains_char c sep = false ->
  Forall (fun w => contains_char c w = false) l ->
  contains_char c (join sep l) = false.
Proof.
  intros Hsep. induction 1 as [|w l Hw Hl IH]; [done|].
  destruct l as [|w' l]; [done|].
  change (join sep (w :: w' :: l)) with (w +:+ sep +:+ join sep (w' :: l)).
  rewrite !contains_char_append, Hw, Hsep. exact IH.
Qed.

Lemma digits_no_char (c : ascii) (s : string) :
  is_digit c = false -> digits_only s = true -> contains_char c s = false.
Proof.
  intros Hc Hs. apply not_true_iff_false. intros Hin.
  rewrite (digits_only_contains s c Hs Hin) in Hc. discriminate.
Qed.

Lemma str_nat_digits (i : nat) : digits_only (str (Z.of_nat i)) = true.
Proof.
  destruct i as [|i]; [reflexivity|].
  change (Z.of_nat (S i)) with (Z.pos (Pos.of_succ_nat i)).
  apply pretty_pos_digits.
Qed.

(** *** Subscripts and searches *)

Lemma getitem_nat {A} (l : list A) (i : nat) :
  getitem l (Z.of_nat i)
  = match l !! i with Some x => Ok x | None => Err IndexError end.
Proof.
  destruct (l !! i) as [x|] eqn:Hx; [now apply getitem_lookup|].
  apply lookup_ge_None in Hx. unfold getitem.
  destruct (Z.of_nat i <? 0) eqn:Hneg; [apply Z.ltb_lt in Hneg; lia|].
  replace (Z.of_nat i <? Z.of_nat (length l)) with false.
  - now rewrite andb_false_r.
  - symmetry. apply Z.ltb_ge. lia.
Qed.

Lemma index_ok `{EqDecision A} (x : A) (l : list A) (i : nat) :
  index x l = Ok i ->
  l !! i = Some x /\ forall j, (j < i)%nat -> l !! j ≠ Some x.
Proof.
  revert i. induction l as [|y l IH]; intros i; simpl; [done|].
  destruct (decide (y = x)) as [->|Hne].
  - intros [= <-]. split; [done|]. lia.
  - destruct (index x l) as [k|e] eqn:Hk; simpl; [|done].
    intros [= <-]. destruct (IH k eq_refl) as [Hx Hfirst]. split; [done|].
    intros [|j] Hj; simpl; [congruence|]. apply Hfirst. lia.
Qed.

Lemma index_err `{EqDecision A} (x : A) (l : list A) (e : exn) :
  index x l = Err e -> e = ValueError /\ x ∉ l.
Proof.
  induction l as [|y l IH]; simpl.
  - intros [= <-]. split; [done|]. apply not_elem_of_nil.
  - destruct (decide (y = x)) as [->|Hne]; [done|].
    destruct (index x l) as [k|e'] eqn:Hk; simpl; [done|].
    intros [= <-]. destruct (IH eq_refl) as [-> Hout]. split; [done|].
    intros [?|?]%elem_of_cons; congruence.
Qed.

Lemma index_elem `{EqDecision A} (x : A) (l : list A) :
  x ∈ l -> exists i, index x l = Ok i.
Proof.
  intros Hin. destruct (index x l) as [i|e] eqn:Hi; [now exists i|].
  now destruct (index_err _ _ _ Hi).
Qed.

(** *** Traversals *)

Lemma mapM_ok {A B} (f : A -> result B) (l : list A) (k : list B) :
  mapM f l = Ok k <-> Forall2 (fun x y => f x = Ok y) l k.
Proof.
  revert k. induction l as [|x l IH]; intros k; simpl.
  - split; [intros [= <-]; constructor | now inversion 1].
  - split.
    + destruct (f x) as [y|e] eqn:Hx; simpl; [|done].
      destruct (mapM f l) as [k'|e] eqn:Hl; simpl; [|done].
      intros [= <-]. constructor; [done | now apply IH].
    + inversion 1 as [|? y ? k' Hx Hl]; subst. rewrite Hx. simpl.
      apply IH in Hl. now rewrite Hl.
Qed.

End BuiltinFacts.

(** ** Building and iterating over records *)

Module ReaderFacts.
Import PyFacts BuiltinFacts Reader RecordState.

Local Arguments startswith : simpl never.

(** X1.  [VariantRecord.__init__] raises [IndexError] exactly when the
    line has fewer than nine fields.  Otherwise the record keeps the line
    as it is, its current and original sample data are both the fields
    from the tenth on, its fixed fields the first nine, and its allele
    list the reference followed by the comma-separated alternates. *)
Theorem record_init_fields (variant_line : list string) :
  ((length variant_line < 9)%nat ->
     VariantRecord.init variant_line = Err IndexError)
  /\ ((9 <= length variant_line)%nat ->
        exists self,
          VariantRecord.init variant_line = Ok self
          /\ VariantRecord.line self = variant_line
          /\ VariantRecord.variant_data self = take 9 variant_line
          /\ VariantRecord.sample_data self = drop 9 variant_line
          /\ VariantRecord.original_sample_data self = drop 9 variant_line
          /\ variant_line !! 3%nat = Some (VariantRecord.ref self)
          /\ split "," <$> variant_line !! 4%nat = Some (VariantRecord.alts self)
          /\ VariantRecord.alleles self
             = VariantRecord.ref self :: VariantRecord.alts self).
Proof.
  split.
  - intros Hshort.
    do 9 (destruct variant_line as [|? variant_line]; [reflexivity|]).
    simpl in Hshort. lia.
  - intros Hlong.
    do 9 (destruct variant_line as [|? variant_line]; [simpl in Hlong; lia|]).
    clear Hlong. unfold VariantRecord.init.
    set (vl := _ :: _).
    change (getitem vl 0) with (getitem vl (Z.of_nat 0)).
    change (getitem vl 1) with (getitem vl (Z.of_nat 1)).
    change (getitem vl 2) with (getitem vl (Z.of_nat 2)).
    change (getitem vl 3) with (getitem vl (Z.of_nat 3)).
    change (getitem vl 4) with (getitem vl (Z.of_nat 4)).
    change (getitem vl 7) with (getitem vl (Z.of_nat 7)).
    change (getitem vl 8) with (getitem vl (Z.of_nat 8)).
    rewrite !getitem_nat. subst vl. simpl.
    eexists. repeat split.
Qed.

Lemma record_init_fields_witness :
  exists self,
    VariantRecord.init ["chrX"; "100"; "."; "A"; "T,G"; "."; "PASS"; "."; "GT"; "0/1"; "1/2"]
    = Ok self
    /\ VariantRecord.sample_data self = ["0/1"; "1/2"]
    /\ VariantRecord.alleles self = ["A"; "T"; "G"].
Proof.
  destruct (proj2 (record_init_fields
              ["chrX"; "100"; "."; "A"; "T,G"; "."; "PASS"; "."; "GT"; "0/1"; "1/2"]))
    as (self & Hinit & _ & _ & Hsd & _ & Href & Halts & Hall).
  - simpl. lia.
  - exists self. split; [exact Hinit|]. split; [exact Hsd|].
    rewrite Hall. injection Href as <-. injection Halts as <-. reflexivity.
Defined.

(** A record as [__init__] builds it. *)
Lemma record_init_ok (variant_line : list string) :
  (9 <= length variant_line)%nat ->
  exists self,
    VariantRecord.init variant_line = Ok self
    /\ VariantRecord.line self = variant_line
    /\ VariantRecord.sample_data self = VariantRecord.original_sample_data self
    /\ consistent self.
Proof.
  intros Hlong.
  destruct (VariantRecord.init variant_line) as [self|e] eqn:Hinit.
  - exists self. split; [done|].
    destruct (VariantRecordFacts.init_consistent _ _ Hinit) as [Hc _].
    revert Hinit. unfold VariantRecord.init. intros H.
    repeat match type of H with
           | (?m ≫= _) = Ok _ =>
               destruct m as [?s|]; [rewrite bind_ok in H | simpl in H; discriminate]
           end.
    cbv [mret result_ret] in H. injection H as <-. now simpl in *.
  - exfalso.
    do 9 (destruct variant_line as [|? variant_line]; [simpl in Hlong; lia|]).
    revert Hinit. unfold VariantRecord.init.
    set (vl := _ :: _).
    change (getitem vl 0) with (getitem vl (Z.of_nat 0)).
    change (getitem vl 1) with (getitem vl (Z.of_nat 1)).
    change (getitem vl 2) with (getitem vl (Z.of_nat 2)).
    change (getitem vl 3) with (getitem vl (Z.of_nat 3)).
    change (getitem vl 4) with (getitem vl (Z.of_nat 4)).
    change (getitem vl 7) with (getitem vl (Z.of_nat 7)).
    change (getitem vl 8) with (getitem vl (Z.of_nat 8)).
    rewrite !getitem_nat. subst vl. simpl. discriminate.
Qed.

Section iteration.
Context (self : VCFParser.t) (header : list string).
Hypothesis Hheader : VCFParser.header self = Some header.
Hypothesis Hnine : (9 <= length header)%nat.

Lemma parse_variant_fits (line : string) :
  fits header line = true ->
  exists v,
    parse_variant self line = Ok v
    /\ VariantRecord.to_str v = line
    /\ length (VariantRecord.line v) = length header
    /\ VariantRecord.sample_data v = VariantRecord.original_sample_data v
    /\ consistent v.
Proof.
  unfold fits. intros Hfit%bool_decide_eq_true.
  unfold parse_variant. rewrite Hheader.
  rewrite bool_decide_eq_false_2 by (intros Hne; now apply Hne).
  destruct (record_init_ok (split (ascii_of_N 9) line)) as (v & Hv & Hline & Hsd & Hc);
    [lia|].
  exists v. split; [done|]. unfold VariantRecord.to_str. rewrite Hline.
  split; [apply join_split|]. now rewrite Hfit.
Qed.

Lemma parse_variant_misfit (line : string) :
  fits header line = false -> parse_variant self line = Err SyntaxError.
Proof.
  unfold fits. intros Hfit%bool_decide_eq_false.
  unfold parse_variant. rewrite Hheader.
  now rewrite bool_decide_eq_true_2 by (intros Heq; now apply Hfit).
Qed.

Lemma fitting_all (lines : list string) :
  fitting header lines = lines <-> Forall (fun l => fits header l = true) lines.
Proof.
  induction lines as [|l lines IH]; simpl; [split; [constructor | done]|].
  destruct (fits header l) eqn:Hl.
  - split.
    + intros [= H]. constructor; [done | now apply IH].
    + intros [_ H]%Forall_cons. f_equal. now apply IH.
  - split; [done|]. intros [H _]%Forall_cons. congruence.
Qed.

(** The loop over the stream: the records yielded print as the longest
    prefix of fitting lines among the lines that do not start with the
    marker; the loop returns when that prefix is everything, and raises
    [SyntaxError] at the first line that does not fit. *)
Lemma iter_lines_spec (stream : list string) :
  exists vs r remaining,
    iter_lines self stream = (vs, r, remaining)
    /\ VariantRecord.to_str <$> vs
       = fitting header (filter (fun l => startswith "#" l = false) (rstrip <$> stream))
    /\ Forall (fresh header) vs
    /\ (r = Ok ()
          /\ fitting header (filter (fun l => startswith "#" l = false) (rstrip <$> stream))
             = filter (fun l => startswith "#" l = false) (rstrip <$> stream)
        \/ r = Err SyntaxError
          /\ fitting header (filter (fun l => startswith "#" l = false) (rstrip <$> stream))
             ≠ filter (fun l => startswith "#" l = false) (rstrip <$> stream)).
Proof.
  induction stream as [|l rest (vs & r & remaining & Hrun & Hstr & Hfresh & Hend)].
  - exists [], (Ok ()), []. repeat split; [constructor | now left].
  - rewrite fmap_cons, filter_cons. simpl iter_lines.
    destruct (decide (startswith "#" (rstrip l) = false)) as [Hhash|Hhash].
    2: { apply not_false_iff_true in Hhash. rewrite Hhash. simpl negb. cbv iota.
         exists vs, r, remaining. now rewrite Hrun. }
    rewrite Hhash. simpl negb. cbv iota. simpl fitting.
    + destruct (fits header (rstrip l)) eqn:Hfit.
      * destruct (parse_variant_fits _ Hfit) as (v & Hv & Hto & Hlen & Hsd & Hc).
        rewrite Hv, Hrun. exists (v :: vs), r, remaining.
        split; [done|]. split; [now rewrite fmap_cons, Hto, Hstr|].
        split; [constructor; [done|done]|].
        destruct Hend as [[-> Hall] | [-> Hnot]]; [left | right]; split; try done.
        -- now rewrite Hall.
        -- intros [= H]. now apply Hnot.
      * rewrite (parse_variant_misfit _ Hfit). exists [], (Err SyntaxError), rest.
        repeat split; [constructor | now right].
Qed.

End iteration.

(** When the loop over the stream returns, the stream is used up. *)
Lemma iter_lines_returns (self : VCFParser.t) (stream : list string)
    (vs : list VariantRecord.t) (remaining : list string) :
  iter_lines self stream = (vs, Ok (), remaining) -> remaining = [].
Proof.
  revert vs. induction stream as [|l rest IH]; intros vs; simpl.
  - now intros [= _ <-].
  - destruct (startswith "#" (rstrip l)); simpl; [apply IH|].
    destruct (parse_variant self (rstrip l)); [|done].
    destruct (iter_lines self rest) as [[vs' r] rem] eqn:Hrest.
    intros [= _ -> <-]. now apply (IH vs').
Qed.

Lemma iter_lines_header (self self' : VCFParser.t) (stream : list string) :
  VCFParser.header self' = VCFParser.header self ->
  iter_lines self' stream = iter_lines self stream.
Proof.
  intros Hh. induction stream as [|l rest IH]; simpl; [done|].
  unfold parse_variant. rewrite Hh, IH. reflexivity.
Qed.

(** With a header of at least nine columns, a full iteration yields
    one record for each line of the longest prefix of the data lines
    whose field count is the header's: each record prints back as its
    line (without trailing white space), has as many fields as the header
    and untouched sample data.  The iteration returns when every data
    line fits and raises [SyntaxError] at the first one that does not. *)
Lemma iter_spec (self : VCFParser.t) (header : list string) :
  VCFParser.header self = Some header ->
  (9 <= length header)%nat ->
  exists vs r self',
    iter self = (vs, r, self')
    /\ VariantRecord.to_str <$> vs = fitting header (data_lines self)
    /\ Forall (fresh header) vs
    /\ (r = Ok () /\ fitting header (data_lines self) = data_lines self
        \/ r = Err SyntaxError /\ fitting header (data_lines self) ≠ data_lines self).
Proof.
  intros Hheader Hnine. unfold iter, data_lines.
  destruct (iter_lines_spec self header Hheader Hnine (VCFParser.vcf self))
    as (vs & r & remaining & Hrun & Hstr & Hfresh & Hend).
  set (data := filter _ _) in *.
  destruct (VCFParser.beginning self); simpl andb; cbv iota;
    [case_bool_decide as Hnext|].
  - simpl fitting. destruct (fits header (VCFParser.next_line self)) eqn:Hfit.
    + destruct (parse_variant_fits self header Hheader Hnine _ Hfit)
        as (v & Hv & Hto & Hfr).
      rewrite Hv.
      rewrite (iter_lines_header self (set_beginning false self)) by done.
      simpl VCFParser.vcf. rewrite Hrun.
      exists (v :: vs), r, (set_vcf remaining (set_beginning false self)).
      split; [done|]. split; [now rewrite fmap_cons, Hto, Hstr|].
      split; [now constructor|].
      destruct Hend as [[-> Hall] | [-> Hnot]]; [left | right]; split; try done.
      * now rewrite Hall.
      * intros [= H]. now apply Hnot.
    + rewrite (parse_variant_misfit self header Hheader _ Hfit).
      exists [], (Err SyntaxError), self. repeat split; [constructor | now right].
  - rewrite Hrun. exists vs, r, (set_vcf remaining self). now repeat split.
  - rewrite Hrun. exists vs, r, (set_vcf remaining self). now repeat split.
Qed.

(** X2.  With a header of at least nine columns, a full iteration yields
    one record for each line of the longest prefix of the data lines
    whose field count is the header's.  Each record prints back as its
    line, has as many fields as the header and untouched sample data.
    The iteration returns when every data line fits and raises
    [SyntaxError] at the first one that does not. *)
Theorem iter_yields_fitting_lines (self : VCFParser.t) (header : list string) :
  VCFParser.header self = Some header ->
  (9 <= length header)%nat ->
  exists vs r self',
    iter self = (vs, r, self')
    /\ VariantRecord.to_str <$> vs = fitting header (data_lines self)
    /\ Forall (fresh header) vs
    /\ (r = Ok () /\ fitting header (data_lines self) = data_lines self
        \/ r = Err SyntaxError /\ fitting header (data_lines self) ≠ data_lines self).
Proof. apply iter_spec. Qed.

(** X3.  A line of white space only, anywhere in the stream still to be
    read, makes a full iteration end in [SyntaxError]: such a line does
    not start with the marker and has a single field. *)
Theorem iter_blank_line_raises (self : VCFParser.t) (header : list string) :
  VCFParser.header self = Some header ->
  (9 <= length header)%nat ->
  Exists (fun l => rstrip l = EmptyString) (VCFParser.vcf self) ->
  (iter self).1.2 = Err SyntaxError.
Proof.
  intros Hheader Hnine Hblank.
  destruct (iter_spec self header Hheader Hnine)
    as (vs & r & self' & Hrun & _ & _ & Hend).
  rewrite Hrun. simpl. destruct Hend as [[_ Hall] | [-> _]]; [exfalso|done].
  apply fitting_all in Hall. unfold data_lines in Hall.
  apply Forall_app in Hall as [_ Hall].
  apply Exists_exists in Hblank as (l & Hin & Hl).
  rewrite Forall_forall in Hall.
  assert (Hdata : EmptyString ∈ filter (fun l => startswith "#" l = false)
                                  (rstrip <$> VCFParser.vcf self)).
  { apply list_elem_of_filter. split; [done|]. rewrite <- Hl.
    now apply list_elem_of_fmap_2. }
  specialize (Hall _ Hdata). unfold fits in Hall.
  apply bool_decide_eq_true in Hall. simpl in Hall. lia.
Qed.

Lemma iter_yields_fitting_lines_witness :
  exists vs self',
    iter Inputs.one_sample_parser = (vs, Ok (), self')
    /\ VariantRecord.to_str <$> vs
       = [join tab ["chrX"; "100"; "."; "A"; "T"; "."; "PASS"; "."; "GT:AD"; "0/1:3,10"]].
Proof.
  destruct (iter_yields_fitting_lines Inputs.one_sample_parser
              (VCFParser.header_columns ++ ["S1"])%list)
    as (vs & r & self' & Hrun & Hstr & _ & Hend).
  - reflexivity.
  - simpl. lia.
  - exists vs, self'. destruct Hend as [[-> _] | [_ Hnot]].
    + split; [exact Hrun | exact Hstr].
    + exfalso. apply Hnot. vm_compute. reflexivity.
Defined.

Lemma iter_blank_line_raises_witness :
  (iter (set_vcf [nl] Inputs.one_sample_parser)).1.2 = Err SyntaxError.
Proof.
  apply (iter_blank_line_raises _ (VCFParser.header_columns ++ ["S1"])%list).
  - reflexivity.
  - simpl. lia.
  - apply Exists_cons_hd. reflexivity.
Defined.

(** The absent header.  Without a header line [self.header] was never
    assigned, and the first line to become a record raises
    [AttributeError]. *)
Lemma iter_lines_no_header (self : VCFParser.t) (stream : list string) :
  VCFParser.header self = None ->
  filter (fun l => startswith "#" l = false) (rstrip <$> stream) ≠ [] ->
  exists remaining, iter_lines self stream = ([], Err AttributeError, remaining).
Proof.
  intros Hnone. induction stream as [|l rest IH]; [done|].
  rewrite fmap_cons, filter_cons. simpl iter_lines.
  destruct (decide (startswith "#" (rstrip l) = false)) as [Hhash|Hhash].
  - intros _. rewrite Hhash. simpl negb. cbv iota.
    unfold parse_variant. rewrite Hnone. now exists rest.
  - apply not_false_iff_true in Hhash. rewrite Hhash. simpl negb. cbv iota.
    exact IH.
Qed.

(** X4.  The iteration is single-pass: once a full iteration has
    returned, a further one yields nothing, returns, and leaves the
    parser as it is. *)
Theorem iter_again_yields_nothing (self self' : VCFParser.t)
    (vs : list VariantRecord.t) :
  iter self = (vs, Ok (), self') -> iter self' = ([], Ok (), self').
Proof.
  unfold iter.
  destruct (VCFParser.beginning self) eqn:Hb; [case_bool_decide as Hnext|].
  - destruct (parse_variant self (VCFParser.next_line self)) as [v|e]; [|done].
    destruct (iter_lines _ _) as [[vs' r] remaining] eqn:Hrun.
    intros [= _ -> <-]. apply iter_lines_returns in Hrun as ->. reflexivity.
  - destruct (iter_lines _ _) as [[vs' r] remaining] eqn:Hrun.
    intros [= _ -> <-]. apply iter_lines_returns in Hrun as ->.
    simpl. rewrite Hb.
    rewrite bool_decide_eq_false_2 by (intros Hne; now apply Hne).
    reflexivity.
  - destruct (iter_lines _ _) as [[vs' r] remaining] eqn:Hrun.
    intros [= _ -> <-]. apply iter_lines_returns in Hrun as ->.
    simpl. rewrite Hb. reflexivity.
Qed.

Lemma iter_again_yields_nothing_witness :
  length (iter Inputs.one_sample_parser).1.1 = 1%nat
  /\ iter (iter Inputs.one_sample_parser).2
     = ([], Ok (), (iter Inputs.one_sample_parser).2).
Proof.
  split; [reflexivity|].
  apply (iter_again_yields_nothing Inputs.one_sample_parser _
           (iter Inputs.one_sample_parser).1.1).
  vm_compute. reflexivity.
Defined.

End ReaderFacts.

(** ** What the reader holds after construction *)

Module HeaderFacts.
Import PyFacts BuiltinFacts VCFParser HeaderBlock Reader.

Local Arguments startswith : simpl never.

Lemma startswith_double (l : string) :
  startswith "##" l = true -> startswith "#" l = true.
Proof.
  destruct l as [|c l]; [done|]. unfold startswith at 1. fold startswith.
  intros [Hc _]%andb_true_iff. unfold startswith. now rewrite Hc.
Qed.

Lemma double_cons (line : string) (blk : list string) :
  double (line :: blk)
  = if startswith "##" line then line :: double blk else double blk.
Proof.
  unfold double. rewrite filter_cons.
  destruct (startswith "##" line); now case_decide.
Qed.

Lemma parse_header_line_ok (line : string) (self self' : t) :
  parse_header_line line self = (Ok (), self') ->
  self' = set_samples (drop 9 (columns line)) (set_header (columns line) self).
Proof.
  unfold parse_header_line, columns.
  case_bool_decide; [done|]. case_bool_decide; [done|]. now intros [= <-].
Qed.

Lemma read_block_nil (line : string) (self : t) :
  read_block line [] self
  = if startswith "#" line then
      match block_step line self with
      | (Err e, _) => Err e
      | (Ok _, self) => Ok (set_next_line EmptyString [] self)
      end
    else Ok (set_next_line line [] self).
Proof. reflexivity. Qed.

Lemma read_block_cons (line l : string) (rest : list string) (self : t) :
  read_block line (l :: rest) self
  = if startswith "#" line then
      match block_step line self with
      | (Err e, _) => Err e
      | (Ok _, self) => read_block (rstrip l) rest self
      end
    else Ok (set_next_line line (l :: rest) self).
Proof. reflexivity. Qed.

Lemma leading_cons (l : string) (lines : list string) :
  leading (l :: lines) = if startswith "#" l then l :: leading lines else [].
Proof. reflexivity. Qed.

(** One turn of the loop that does not raise: a double-marker line joins
    the metadata, a single-marker line replaces header and samples. *)
Lemma block_step_ok (line : string) (self self' : t) :
  startswith "#" line = true ->
  block_step line self = (Ok (), self') ->
  metadata self' = (metadata self ++ double [line])%list
  /\ header self' = match last (header_lines [line]) with
                    | Some l => Some (columns l)
                    | None => header self
                    end
  /\ samples self' = match last (header_lines [line]) with
                     | Some l => drop 9 (columns l)
                     | None => samples self
                     end
  /\ beginning self' = beginning self.
Proof.
  intros Hhash. unfold block_step.
  rewrite VCFParserFacts.header_lines_cons, double_cons, Hhash.
  destruct (startswith "##" line).
  - now intros [= <-].
  - intros ->%parse_header_line_ok. simpl. now rewrite app_nil_r.
Qed.

(** What the loop of [__init__] leaves in the parser when it returns. *)
Lemma read_block_ok (rest : list string) :
  forall (line : string) (self p : t),
    read_block line rest self = Ok p ->
    metadata p = (metadata self ++ double (leading (line :: (rstrip <$> rest))))%list
    /\ header p = match last (header_lines (leading (line :: (rstrip <$> rest)))) with
                  | Some l => Some (columns l)
                  | None => header self
                  end
    /\ samples p = match last (header_lines (leading (line :: (rstrip <$> rest)))) with
                   | Some l => drop 9 (columns l)
                   | None => samples self
                   end
    /\ (next_line p, vcf p)
       = (if startswith "#" line then after_block rest else (line, rest))
    /\ beginning p = beginning self.
Proof.
  induction rest as [|l rest IH]; intros line self p;
    [rewrite read_block_nil | rewrite read_block_cons, fmap_cons];
    rewrite leading_cons; destruct (startswith "#" line) eqn:Hhash;
    try (intros [= <-]; cbn; now rewrite app_nil_r);
    destruct (block_step line self) as [[[]|e] self'] eqn:Hstep; try done;
    destruct (block_step_ok _ _ _ Hhash Hstep) as (Hm & Hh & Hs & Hb).
  - intros [= <-]. cbn [fmap list_fmap leading]. cbn [metadata header samples
      next_line vcf beginning set_next_line]. now rewrite Hm, Hh, Hs, Hb.
  - intros Hrun. apply IH in Hrun as (Hm' & Hh' & Hs' & Hn' & Hb').
    set (blk := leading (rstrip l :: (rstrip <$> rest))) in *.
    rewrite Hm', Hh', Hs', Hn', Hb', Hm, Hh, Hs, Hb.
    rewrite !VCFParserFacts.header_lines_cons, !double_cons.
    destruct (startswith "##" line); cbn [double header_lines filter list_filter last];
      rewrite ?app_nil_r, <- ?app_assoc, ?last_cons;
      repeat split; try done; destruct (last (header_lines blk)); done.
Qed.

(** X5.  When [__init__] returns, the metadata are the double-marker
    lines of the leading block in their order, the header is the columns
    of the last single-marker line of the block (unset when there is
    none) and the samples its columns from the tenth on; the line read
    ahead is the first line after the block and the stream stands right
    after it. *)
Theorem init_result (stream : list string) (p : t) :
  init stream = Ok p ->
  metadata p = double (block stream)
  /\ header p = columns <$> last (header_lines (block stream))
  /\ samples p = default [] (drop 9 ∘ columns <$> last (header_lines (block stream)))
  /\ (next_line p, vcf p) = after_block stream
  /\ beginning p = true.
Proof.
  unfold init, block. destruct stream as [|l rest]; [done|].
  cbn [readline fst snd]. rewrite fmap_cons.
  destruct (startswith "#" (rstrip l)) eqn:Hhash; [|done]. cbn [negb].
  intros (Hm & Hh & Hs & Hn & Hb)%read_block_ok.
  rewrite Hhash in Hn. cbn [after_block]. rewrite Hhash.
  split; [exact Hm|]. split; [|split; [|split; [exact Hn | exact Hb]]].
  - rewrite Hh. now destruct (last _).
  - rewrite Hs. now destruct (last _).
Qed.

Lemma init_result_witness :
  exists p,
    init Inputs.two_headers_file = Ok p
    /\ metadata p = ["##fileformat=VCFv4.2"]
    /\ samples p = ["T1"].
Proof.
  destruct (init Inputs.two_headers_file) as [p|e] eqn:Hinit;
    [|vm_compute in Hinit; discriminate].
  exists p. split; [reflexivity|].
  destruct (init_result _ _ Hinit) as (Hm & _ & Hs & _).
  split; [rewrite Hm | rewrite Hs]; vm_compute; reflexivity.
Defined.

(** The header that a successful [__init__] leaves passed both checks of
    [parse_header_line]. *)
Lemma init_header_good (stream : list string) (p : t) (h : list string) :
  init stream = Ok p ->
  header p = Some h ->
  exists l,
    last (header_lines (block stream)) = Some l
    /\ h = columns l
    /\ take 9 h = header_columns
    /\ (1 <= length (drop 9 h))%nat
    /\ samples p = drop 9 h.
Proof.
  intros Hinit Hh.
  destruct (init_result _ _ Hinit) as (_ & Hh' & Hs & _).
  rewrite Hh in Hh'.
  destruct (last (header_lines (block stream))) as [l|] eqn:Hlast; [|done].
  injection Hh' as ->. exists l. split; [done|]. split; [done|].
  assert (Hgood : ~ bad_header l).
  { intros Hbad.
    assert (Herr : init stream = Err IOError).
    { apply VCFParserFacts.init_raises. split; [done|]. right.
      apply Exists_exists. exists l. split; [|done].
      now apply last_Some_elem_of. }
    congruence. }
  unfold bad_header, wrong_columns, no_samples in Hgood.
  split; [apply dec_stable; tauto|]. split; [lia|]. exact Hs.
Qed.

(** X6.  Without a header line in the leading block [__init__] still
    returns, but [self.header] was never assigned: a full iteration over
    a parser so built raises [AttributeError] at its first data line and
    yields nothing. *)
Theorem iter_without_header (stream : list string) (p : t) :
  init stream = Ok p ->
  header_lines (block stream) = [] ->
  data_lines p ≠ [] ->
  (iter p).1 = ([], Err AttributeError).
Proof.
  intros Hinit Hnone Hdata.
  destruct (init_result _ _ Hinit) as (_ & Hh & _ & _ & Hb).
  rewrite Hnone in Hh. simpl in Hh.
  revert Hdata. unfold iter, data_lines. rewrite Hb. cbn [andb].
  case_bool_decide as Hnext.
  - intros _. unfold parse_variant. now rewrite Hh.
  - cbn [app]. intros Hdata.
    destruct (ReaderFacts.iter_lines_no_header p (vcf p) Hh Hdata) as [rem ->].
    reflexivity.
Qed.

Lemma iter_without_header_witness :
  exists p,
    init ["##fileformat=VCFv4.2" +:+ nl; "chrX" +:+ tab +:+ "100" +:+ nl] = Ok p
    /\ (iter p).1 = ([], Err AttributeError).
Proof.
  destruct (init ["##fileformat=VCFv4.2" +:+ nl; "chrX" +:+ tab +:+ "100" +:+ nl])
    as [p|e] eqn:Hinit; [|vm_compute in Hinit; discriminate].
  exists p. split; [reflexivity|].
  apply (iter_without_header _ _ Hinit); [reflexivity|].
  vm_compute in Hinit. injection Hinit as <-. vm_compute. discriminate.
Defined.

(** *** Writing the header block and reading it back *)

Lemma leading_rstripped (stream : list string) :
  Forall (fun l => rstrip l = l /\ startswith "#" l = true)
         (leading (rstrip <$> stream)).
Proof.
  induction stream as [|l rest IH]; [constructor|].
  rewrite fmap_cons, leading_cons.
  destruct (startswith "#" (rstrip l)) eqn:Hhash; [|constructor].
  constructor; [|done]. split; [apply rstrip_idempotent | done].
Qed.

Lemma leading_all (lines : list string) :
  Forall (fun l => startswith "#" l = true) lines -> leading lines = lines.
Proof.
  induction 1 as [|l lines Hl _ IH]; [done|].
  now rewrite leading_cons, Hl, IH.
Qed.

Lemma filter_all {A} (P : A -> Prop) `{forall x, Decision (P x)} (l : list A) :
  Forall P l -> filter P l = l.
Proof.
  induction 1 as [|x l Hx _ IH]; [done|].
  now rewrite filter_cons, decide_True, IH.
Qed.

Lemma filter_none {A} (P : A -> Prop) `{forall x, Decision (P x)} (l : list A) :
  Forall (fun x => ~ P x) l -> filter P l = [].
Proof.
  induction 1 as [|x l Hx _ IH]; [done|].
  now rewrite filter_cons, decide_False, IH.
Qed.

Lemma header_columns_head (h : list string) :
  take 9 h = header_columns -> exists h', h = "CHROM" :: h'.
Proof. destruct h as [|c h']; [done|]. intros [= -> _]. now exists h'. Qed.

(** X7.  The header block of a parser that [__init__] built with a
    header, written one line per metadata entry followed by the line of
    [print_headerline], reads back into the same metadata, header and
    samples. *)
Theorem header_block_round_trip (stream : list string) (p : t) (h : list string) :
  init stream = Ok p ->
  header p = Some h ->
  exists hl p',
    print_headerline p = Ok hl
    /\ init ((fun l => l +:+ nl) <$> (metadata p ++ [hl])%list) = Ok p'
    /\ metadata p' = metadata p
    /\ header p' = header p
    /\ samples p' = samples p.
Proof.
  intros Hinit Hh.
  destruct (init_header_good _ _ _ Hinit Hh) as (l0 & _ & Hcols & Hnine & Hsamples & Hs).
  destruct (init_result _ _ Hinit) as (Hm & _).
  set (x := rstrip (tail l0)).
  assert (Hx : join tab h = x) by (rewrite Hcols; apply join_split).
  assert (Hxx : rstrip x = x) by apply rstrip_idempotent.
  set (hl := String "#" x).
  assert (Hprint : print_headerline p = Ok hl).
  { unfold print_headerline. rewrite Hh. fold tab. now rewrite Hx. }
  assert (Hhl_hash : startswith "#" hl = true) by reflexivity.
  assert (Hhl_single : startswith "##" hl = false).
  { destruct (header_columns_head h Hnine) as [h' Hhead].
    subst hl. rewrite <- Hx, Hhead. now destruct h'. }
  assert (Hhl_cols : columns hl = h).
  { unfold columns, hl. cbn [tail]. now rewrite Hxx, Hcols. }
  assert (Hhl_strip : rstrip hl = hl) by now apply rstrip_cons.
  assert (Hmeta : Forall (fun l => rstrip l = l /\ startswith "##" l = true) (metadata p)).
  { rewrite Hm. unfold double, block.
    apply Forall_forall. intros l [Hl Hin]%list_elem_of_filter. split; [|done].
    pose proof (leading_rstripped stream) as Hall.
    rewrite Forall_forall in Hall. now apply Hall. }
  set (lines := (metadata p ++ [hl])%list).
  assert (Hlines : Forall (fun l => rstrip l = l /\ startswith "#" l = true) lines).
  { apply Forall_app. split.
    - eapply Forall_impl; [exact Hmeta|]. intros l [? ?]. split; [done|].
      now apply startswith_double.
    - now repeat constructor. }
  assert (Hstrip : rstrip <$> ((fun l => l +:+ nl) <$> lines) = lines).
  { rewrite <- list_fmap_compose. rewrite <- (list_fmap_id lines) at 2.
    apply Forall_fmap_ext. eapply Forall_impl; [exact Hlines|].
    intros l [Hl _]. simpl. now rewrite rstrip_append_nl. }
  assert (Hblock : block ((fun l => l +:+ nl) <$> lines) = lines).
  { unfold block. rewrite Hstrip. apply leading_all.
    eapply Forall_impl; [exact Hlines|]. now intros l [_ ?]. }
  assert (Hdouble : double lines = metadata p).
  { unfold double, lines. rewrite filter_app, filter_all.
    - rewrite filter_cons, decide_False by congruence. apply app_nil_r.
    - eapply Forall_impl; [exact Hmeta|]. now intros l [_ ?]. }
  assert (Hsingle : header_lines lines = [hl]).
  { unfold header_lines, lines. rewrite filter_app, filter_none.
    - now rewrite filter_cons, decide_True.
    - eapply Forall_impl; [exact Hmeta|]. intros l [_ ?]. congruence. }
  destruct (init ((fun l => l +:+ nl) <$> lines)) as [p'|e] eqn:Hinit'.
  - exists hl, p'. split; [done|]. split; [done|].
    destruct (init_result _ _ Hinit') as (Hm' & Hh' & Hs' & _).
    rewrite Hblock in Hm', Hh', Hs'. rewrite Hsingle in Hh', Hs'.
    change (header p' = Some (columns hl)) in Hh'.
    change (samples p' = drop 9 (columns hl)) in Hs'.
    rewrite Hhl_cols in Hh', Hs'. now rewrite Hm', Hdouble, Hh', Hh, Hs', Hs.
  - exfalso. apply VCFParserFacts.init_raises in Hinit' as [_ [Hfirst | Hbad]].
    + unfold first_line in Hfirst.
      assert (Hhead : exists l ls, lines = l :: ls /\ startswith "#" l = true).
      { unfold lines in *. destruct (metadata p) as [|m ms].
        - now exists hl, [].
        - exists m, (ms ++ [hl])%list. split; [done|].
          now apply Forall_cons in Hlines as [[_ ?] _]. }
      destruct Hhead as (l & ls & Heq & Hl). rewrite Heq in *.
      apply Forall_cons in Hlines as [[Hl' _] _].
      cbn in Hfirst. rewrite rstrip_append_nl, Hl' in Hfirst. congruence.
    + rewrite Hblock, Hsingle in Hbad.
      apply Exists_cons in Hbad as [Hbad | Hbad]; [|now apply Exists_nil in Hbad].
      unfold bad_header, wrong_columns, no_samples in Hbad.
      rewrite Hhl_cols in Hbad. destruct Hbad as [Hbad | Hbad]; [done | lia].
Qed.

Lemma header_block_round_trip_witness :
  exists hl p',
    print_headerline Inputs.one_sample_parser = Ok hl
    /\ init ((fun l => l +:+ nl) <$> (metadata Inputs.one_sample_parser ++ [hl])%list) = Ok p'
    /\ metadata p' = metadata Inputs.one_sample_parser
    /\ header p' = header Inputs.one_sample_parser
    /\ samples p' = samples Inputs.one_sample_parser.
Proof.
  apply (header_block_round_trip Inputs.one_sample_file _
           (header_columns ++ ["S1"])%list).
  - vm_compute. reflexivity.
  - reflexivity.
Defined.

End HeaderFacts.

(** ** Metadata and sample names *)

Module RenameFacts.
Import PyFacts BuiltinFacts VCFParser HeaderBlock Reader.

(** X8.  For a key that is not reserved [add_meta] always returns; the
    metadata it leaves extend the old ones at the end and contain the
    rendered line; no duplicate line appears that was not there before;
    header and samples are untouched; and a second call with the same key
    and value changes nothing. *)
Theorem add_meta_append_once (key value : string) (self : t) :
  lower key ∉ reserved ->
  exists self',
    add_meta key value self = (Ok (), self')
    /\ metadata self `prefix_of` metadata self'
    /\ meta_line key value ∈ metadata self'
    /\ (NoDup (metadata self) -> NoDup (metadata self'))
    /\ header self' = header self /\ samples self' = samples self
    /\ add_meta key value self' = (Ok (), self').
Proof.
  intros Hfree%contains_false. unfold add_meta. rewrite Hfree. cbn [negb].
  destruct (contains (meta_line key value) (metadata self)) eqn:Hin; cbn [negb].
  - exists self. rewrite Hin. apply contains_true in Hin. now repeat split.
  - eexists. split; [reflexivity|]. cbn [metadata set_metadata header samples].
    apply contains_false in Hin.
    assert (Hnew : meta_line key value ∈ (metadata self ++ [meta_line key value])%list).
    { apply elem_of_app. right. now left. }
    split; [now eexists|]. split; [done|].
    split.
    + intros Hnd. apply NoDup_app. split; [done|]. split.
      * intros x Hx [->|[]%elem_of_nil]%elem_of_cons. done.
      * apply NoDup_singleton.
    + split; [done|]. split; [done|].
      apply contains_true in Hnew. now rewrite Hnew.
Qed.

Lemma add_meta_append_once_witness :
  exists self',
    add_meta "source" "CoLoRS" Inputs.one_sample_parser = (Ok (), self')
    /\ metadata self' = ["##fileformat=VCFv4.2"; "##source=CoLoRS"]
    /\ add_meta "source" "CoLoRS" self' = (Ok (), self').
Proof.
  destruct (add_meta_append_once "source" "CoLoRS" Inputs.one_sample_parser)
    as (self' & Hrun & _ & _ & _ & _ & _ & Hagain).
  - apply (bool_decide_unpack _). vm_compute. exact I.
  - exists self'. split; [exact Hrun|]. split; [|exact Hagain].
    vm_compute in Hrun. injection Hrun as <-. reflexivity.
Defined.

Lemma accepted_name_iff (name : string) :
  sample_pattern_match name = true <-> accepted_name name.
Proof. apply VCFParserFacts.sample_pattern_match_iff. Qed.

(** X9.  With a header in place, [change_sample_names] returns exactly
    when there are as many names as samples and each is an accepted name;
    it then replaces the samples and the header's columns from the tenth
    on by the names.  In every other case it raises [ValueError] and the
    parser stays as it was. *)
Theorem change_sample_names_outcome (sample_names h : list string) (self : t) :
  header self = Some h ->
  (length sample_names = length (samples self)
   /\ Forall accepted_name sample_names ->
     change_sample_names sample_names self
     = (Ok (), set_header (take 9 h ++ sample_names)
                 (set_samples sample_names self)))
  /\ (~ (length sample_names = length (samples self)
         /\ Forall accepted_name sample_names) ->
      change_sample_names sample_names self = (Err ValueError, self)).
Proof.
  intros Hh.
  destruct (VCFParserFacts.change_sample_names_cases sample_names self)
    as (Hlen & Hbad & Hgood).
  split.
  - intros [Hl Hall]. apply Hgood; [done| |done].
    eapply Forall_impl; [exact Hall|]. intros n. apply accepted_name_iff.
  - intros Hnot.
    destruct (decide (length sample_names = length (samples self))) as [Hl|Hl];
      [|now apply Hlen].
    apply Hbad.
    destruct (decide (Forall (fun n => sample_pattern_match n = true) sample_names))
      as [Hall|Hsome].
    + exfalso. apply Hnot. split; [done|].
      eapply Forall_impl; [exact Hall|]. intros n. apply accepted_name_iff.
    + apply not_Forall_Exists in Hsome; [|solve_decision].
      eapply Exists_impl; [exact Hsome|]. intros n Hn. now apply not_true_iff_false.
Qed.

Lemma change_sample_names_outcome_witness :
  change_sample_names ["HG002"] Inputs.one_sample_parser
  = (Ok (), set_header (header_columns ++ ["HG002"])
              (set_samples ["HG002"] Inputs.one_sample_parser))
  /\ change_sample_names ["HG-002"] Inputs.one_sample_parser
     = (Err ValueError, Inputs.one_sample_parser).
Proof.
  destruct (change_sample_names_outcome ["HG002"] (header_columns ++ ["S1"])
              Inputs.one_sample_parser eq_refl) as [Hok _].
  destruct (change_sample_names_outcome ["HG-002"] (header_columns ++ ["S1"])
              Inputs.one_sample_parser eq_refl) as [_ Herr].
  split.
  - apply Hok. split; [reflexivity|]. apply Forall_cons. split; [now left | constructor].
  - apply Herr. intros [_ Hall]. apply Forall_cons in Hall as [Hname _].
    apply accepted_name_iff in Hname. vm_compute in Hname. discriminate.
Defined.

(** Reading a line depends on the header through its length only. *)
Lemma parse_variant_length (self self' : t) (h h' : list string) (line : string) :
  header self = Some h -> header self' = Some h' -> length h' = length h ->
  parse_variant self' line = parse_variant self line.
Proof. intros Hh Hh' Hlen. unfold parse_variant. now rewrite Hh, Hh', Hlen. Qed.

Lemma iter_lines_length (self self' : t) (h h' : list string) (stream : list string) :
  header self = Some h -> header self' = Some h' -> length h' = length h ->
  iter_lines self' stream = iter_lines self stream.
Proof.
  intros Hh Hh' Hlen. induction stream as [|l rest IH]; simpl; [done|].
  now rewrite IH, (parse_variant_length self self' h h').
Qed.

(** X10.  Renaming the samples of a parser that [__init__] built does
    not change what a full iteration yields or how it ends: the records
    are read by position and the header keeps its length. *)
Theorem rename_keeps_records (stream sample_names : list string) (p p' : t) :
  init stream = Ok p ->
  change_sample_names sample_names p = (Ok (), p') ->
  (iter p').1 = (iter p).1.
Proof.
  intros Hinit Hrename.
  destruct (header p) as [h|] eqn:Hh.
  2: { revert Hrename. unfold change_sample_names.
       repeat case_match; try done. cbn [header set_samples] in *. congruence. }
  destruct (HeaderFacts.init_header_good _ _ _ Hinit Hh)
    as (_ & _ & _ & Hnine & _ & Hs).
  assert (Hlen9 : length (take 9 h) = 9%nat) by (rewrite Hnine; reflexivity).
  assert (Hp' : p' = set_header (take 9 h ++ sample_names) (set_samples sample_names p)
                /\ length sample_names = length (samples p)).
  { revert Hrename. unfold change_sample_names.
    case_bool_decide as Hl; [done|]. destruct (forallb _ _); [|done]. cbn [negb].
    cbn [header set_samples]. rewrite Hh. intros [= <-]. split; [done|].
    now apply dec_stable. }
  destruct Hp' as [-> Hl].
  set (p' := set_header _ _).
  assert (Hh' : header p' = Some (take 9 h ++ sample_names)%list) by reflexivity.
  assert (Hlen : length (take 9 h ++ sample_names)%list = length h).
  { rewrite length_app, Hlen9, Hl, Hs, length_drop.
    rewrite length_take in Hlen9. lia. }
  unfold iter.
  change (beginning p') with (beginning p). change (next_line p') with (next_line p).
  destruct (beginning p); [case_bool_decide|].
  - rewrite (parse_variant_length p p' _ _ _ Hh Hh' Hlen).
    destruct (parse_variant p (next_line p)) as [v|e]; [|done].
    rewrite (iter_lines_length (set_beginning false p) (set_beginning false p')
               h (take 9 h ++ sample_names)%list) by done.
    change (vcf (set_beginning false p')) with (vcf (set_beginning false p)).
    now destruct (iter_lines _ _) as [[? ?] ?].
  - rewrite (iter_lines_length p p' _ _ _ Hh Hh' Hlen).
    change (vcf p') with (vcf p).
    now destruct (iter_lines _ _) as [[? ?] ?].
  - rewrite (iter_lines_length p p' _ _ _ Hh Hh' Hlen).
    change (vcf p') with (vcf p).
    now destruct (iter_lines _ _) as [[? ?] ?].
Qed.

Lemma rename_keeps_records_witness :
  let p := Inputs.one_sample_parser in
  let p' := (change_sample_names ["HG002"] p).2 in
  header p' = Some (header_columns ++ ["HG002"])%list
  /\ (iter p').1 = (iter p).1.
Proof.
  split; [reflexivity|].
  apply (rename_keeps_records Inputs.one_sample_file ["HG002"]).
  - vm_compute. reflexivity.
  - vm_compute. reflexivity.
Defined.

End RenameFacts.

(** ** Remapped genotypes *)

Module RemapFacts.
Import PyFacts BuiltinFacts VariantRecord RecordState Remap.

Lemma mapM_Forall_ok {A B} (f : A -> result B) (Q : B -> Prop) (l : list A) :
  Forall (fun x => exists y, f x = Ok y /\ Q y) l ->
  exists k, mapM f l = Ok k /\ Forall Q k.
Proof.
  induction 1 as [|x l (y & Hy & Qy) _ (k & Hk & Qk)].
  - now exists [].
  - exists (y :: k). split; [now apply mapM_cons_ok | now constructor].
Qed.

Lemma Forall2_compose {A B C} (P : A -> B -> Prop) (Q : B -> C -> Prop)
    (l1 : list A) (l2 : list B) (l3 : list C) :
  Forall2 P l1 l2 -> Forall2 Q l2 l3 ->
  Forall2 (fun x z => exists y, P x y /\ Q y z) l1 l3.
Proof.
  intros H. revert l3. induction H as [|x y l1 l2 Hxy _ IH]; intros l3.
  - inversion 1. constructor.
  - inversion 1 as [|? z ? l3' Hyz Hrest]; subst. constructor; [now exists y | auto].
Qed.

Section remap.
Context (alleles target : list string).

Let to_allele (tok : string) : result string :=
  hap ← int tok; getitem alleles hap.
Let to_index (hap : string) : result nat := index hap target.
Let numeral (i : nat) : string := str (Z.of_nat i).
Let reassemble (g : list nat) (sample : string) : string :=
  join ":" (join "/" (numeral <$> g) :: drop 1 (split ":" sample)).

Lemma numerals_no_char (c : ascii) (idxs : list nat) :
  is_digit c = false ->
  Forall (fun w => contains_char c w = false) (numeral <$> idxs).
Proof.
  intros Hc. apply Forall_fmap, Forall_forall. intros i _.
  apply digits_no_char; [done | apply str_nat_digits].
Qed.

(** One sample put together again splits into the new genotype and the
    old remaining fields. *)
Lemma reassemble_split (idxs : list nat) (sample : string) :
  idxs ≠ [] ->
  split ":" (reassemble idxs sample)
  = join "/" (numeral <$> idxs) :: drop 1 (split ":" sample)
  /\ genotype_tokens (reassemble idxs sample) = numeral <$> idxs.
Proof.
  intros Hne.
  assert (Hsplit : split ":" (reassemble idxs sample)
                   = join "/" (numeral <$> idxs) :: drop 1 (split ":" sample)).
  { apply (split_join ":"); [done|]. constructor.
    - apply contains_char_join; [done|]. now apply numerals_no_char.
    - apply Forall_drop, split_no_sep. }
  split; [done|]. unfold genotype_tokens. rewrite Hsplit. cbn [hd].
  apply (split_join "/").
  - now destruct idxs.
  - now apply numerals_no_char.
Qed.

Lemma to_allele_to_index (tok a : string) (i : nat) :
  to_allele tok = Ok a -> to_index a = Ok i ->
  renders alleles target tok (numeral i).
Proof.
  unfold to_allele, to_index. destruct (int tok) as [hap|e] eqn:Hint; [|done].
  rewrite bind_ok. intros Ha [Hi Hfirst]%index_ok. now exists hap, a, i.
Qed.

Lemma remap_sample (sample : string) (full : list string) (idxs : list nat) :
  Forall2 (fun tok a => to_allele tok = Ok a) (genotype_tokens sample) full ->
  Forall2 (fun a i => to_index a = Ok i) full idxs ->
  drop 1 (split ":" (reassemble idxs sample)) = drop 1 (split ":" sample)
  /\ Forall2 (renders alleles target)
       (genotype_tokens sample) (genotype_tokens (reassemble idxs sample)).
Proof.
  intros Hfull Hidxs.
  assert (Hne : idxs ≠ []).
  { intros ->. apply Forall2_length in Hfull, Hidxs.
    pose proof (split_length_pos "/" (hd EmptyString (split ":" sample))) as Hpos.
    unfold genotype_tokens in Hfull. simpl in Hidxs. lia. }
  destruct (reassemble_split idxs sample Hne) as [Hsplit Htoks].
  split; [now rewrite Hsplit|]. rewrite Htoks. apply Forall2_fmap_r.
  eapply Forall2_impl; [apply (Forall2_compose _ _ _ _ _ Hfull Hidxs)|].
  intros tok i (a & Ha & Hi). now apply (to_allele_to_index tok a).
Qed.

Lemma remap_all (samples : list string) :
  forall (fulls : list (list string)) (idxss : list (list nat)),
    Forall2 (Forall2 (fun tok a => to_allele tok = Ok a))
            (genotype_tokens <$> samples) fulls ->
    Forall2 (Forall2 (fun a i => to_index a = Ok i)) fulls idxss ->
    Forall2 (fun sample sample' =>
               drop 1 (split ":" sample') = drop 1 (split ":" sample)
               /\ Forall2 (renders alleles target)
                    (genotype_tokens sample) (genotype_tokens sample'))
            samples (zip_with reassemble idxss samples).
Proof.
  induction samples as [|sample samples IH]; intros fulls idxss Hf Hi.
  - destruct idxss; constructor.
  - rewrite fmap_cons in Hf.
    inversion Hf as [|? full ? fulls' Hfull Hfulls]; subst.
    inversion Hi as [|? idxs ? idxss' Hidxs Hidxss]; subst.
    cbn [zip_with]. constructor; [now apply (remap_sample sample full) | eauto].
Qed.

Lemma resolves_stage (toks : list string) :
  Forall (resolves alleles target) toks ->
  exists full, mapM to_allele toks = Ok full
               /\ Forall (fun a => a ∈ target) full.
Proof.
  intros Hall. apply mapM_Forall_ok. eapply Forall_impl; [exact Hall|].
  intros tok (hap & a & Hint & Ha & Hin). exists a. split; [|done].
  unfold to_allele. now rewrite Hint.
Qed.

Lemma index_stage (full : list string) :
  Forall (fun a => a ∈ target) full -> exists idxs, mapM to_index full = Ok idxs.
Proof.
  intros Hall.
  destruct (mapM_Forall_ok to_index (fun _ => True) full) as (idxs & Hidxs & _).
  - eapply Forall_impl; [exact Hall|]. intros a [i Hi]%index_elem. now exists i.
  - now exists idxs.
Qed.

Lemma stages_resolve (toks full : list string) (idxs : list nat) :
  mapM to_allele toks = Ok full -> mapM to_index full = Ok idxs ->
  Forall (resolves alleles target) toks.
Proof.
  intros Hfull%mapM_ok Hidxs%mapM_ok.
  pose proof (Forall2_compose _ _ _ _ _ Hfull Hidxs) as Hboth.
  apply Forall_forall. intros tok Htok.
  apply list_elem_of_lookup in Htok as [k Hk].
  destruct (Forall2_lookup_l _ _ _ _ _ Hboth Hk) as (i & _ & a & Ha & Hi).
  revert Ha. unfold to_allele. destruct (int tok) as [hap|e] eqn:Hint; [|done].
  rewrite bind_ok. intros Ha. exists hap, a. split; [done|]. split; [done|].
  apply index_ok in Hi as [Hi _]. now apply list_elem_of_lookup_2 in Hi.
Qed.

End remap.

(** The three lists that [update_genotypes] computes before it assigns. *)
Lemma update_genotypes_stages (ref : string) (alts : list string) (self : t) :
  update_genotypes ref alts self
  = match mapM (mapM (fun tok => hap ← int tok; getitem (alleles self) hap))
               (genotype_tokens <$> sample_data self) with
    | Err e => (Err e, self)
    | Ok fulls =>
        match mapM (mapM (fun hap => index hap (ref :: alts))) fulls with
        | Err e => (Err e, self)
        | Ok idxss =>
            let sd := zip_with
                        (fun g sample =>
                           join ":" (join "/" ((fun i => str (Z.of_nat i)) <$> g)
                                       :: drop 1 (split ":" sample)))
                        idxss (sample_data self) in
            (Ok (), set_line (variant_data self ++ sd) (set_sample_data sd self))
        end
    end.
Proof.
  unfold update_genotypes.
  destruct (mapM (mapM _) (genotype_tokens <$> sample_data self)) as [fulls|e];
    [|reflexivity].
  rewrite bind_ok. now destruct (mapM (mapM _) fulls).
Qed.

Lemma update_genotypes_length (ref : string) (alts : list string) (self self' : t) :
  update_genotypes ref alts self = (Ok (), self') ->
  length (sample_data self') = length (sample_data self)
  /\ variant_data self' = variant_data self
  /\ consistent self'.
Proof.
  rewrite update_genotypes_stages.
  destruct (mapM (mapM _) (genotype_tokens <$> sample_data self)) as [fulls|e] eqn:Hf;
    [|done].
  destruct (mapM (mapM _) fulls) as [idxss|e] eqn:Hi; [|done].
  intros [= <-]. split; [|now split].
  cbn [sample_data set_line set_sample_data].
  apply mapM_ok, Forall2_length in Hf. apply mapM_ok, Forall2_length in Hi.
  rewrite length_fmap in Hf. rewrite length_zip_with. lia.
Qed.

(** X11.  When [update_genotypes] returns, every sample keeps its fields
    after the genotype, and each haplotype token has become the numeral
    of the first position in the target list of the allele that the old
    token named in the record's allele list.  The line is rebuilt from
    the fixed fields and the new sample data; the record's own allele
    list, fixed fields and snapshot are not updated. *)
Theorem update_genotypes_renders (ref : string) (alts : list string) (self self' : t) :
  update_genotypes ref alts self = (Ok (), self') ->
  Forall2 (fun sample sample' =>
             drop 1 (split ":" sample') = drop 1 (split ":" sample)
             /\ Forall2 (renders (alleles self) (ref :: alts))
                  (genotype_tokens sample) (genotype_tokens sample'))
          (sample_data self) (sample_data self')
  /\ consistent self'
  /\ alleles self' = alleles self
  /\ variant_data self' = variant_data self
  /\ original_sample_data self' = original_sample_data self.
Proof.
  rewrite update_genotypes_stages.
  destruct (mapM (mapM _) (genotype_tokens <$> sample_data self)) as [fulls|e] eqn:Hf;
    [|done].
  destruct (mapM (mapM _) fulls) as [idxss|e] eqn:Hi; [|done].
  intros [= <-]. split; [|now repeat split].
  cbn [sample_data set_line set_sample_data].
  apply (remap_all (alleles self) (ref :: alts) (sample_data self) fulls idxss).
  - apply mapM_ok in Hf. eapply Forall2_impl; [exact Hf|].
    intros toks full. apply mapM_ok.
  - apply mapM_ok in Hi. eapply Forall2_impl; [exact Hi|].
    intros full idxs. apply mapM_ok.
Qed.

Lemma update_genotypes_renders_witness :
  let self := Inputs.record "GT:AD" ["0/1:3,10"; "1/1:0,9"] in
  let self' := (update_genotypes "T" ["G"; "A"] self).2 in
  sample_data self' = ["2/0:3,10"; "0/0:0,9"]
  /\ consistent self' /\ alleles self' = ["A"; "T"].
Proof.
  split; [reflexivity|].
  destruct (update_genotypes_renders "T" ["G"; "A"]
              (Inputs.record "GT:AD" ["0/1:3,10"; "1/1:0,9"])
              (update_genotypes "T" ["G"; "A"]
                 (Inputs.record "GT:AD" ["0/1:3,10"; "1/1:0,9"])).2)
    as (_ & Hc & Ha & _).
  - vm_compute. reflexivity.
  - split; [exact Hc | exact Ha].
Defined.

(** X12.  [update_genotypes] returns exactly when every haplotype token
    of every sample is an integer that subscripts the record's allele
    list and names an allele that the target list holds.  Otherwise it
    raises [ValueError] or [IndexError] and the record stays as it was. *)
Theorem update_genotypes_lossless_or_fails
    (ref : string) (alts : list string) (self : t) :
  (Forall (fun sample =>
             Forall (resolves (alleles self) (ref :: alts)) (genotype_tokens sample))
          (sample_data self) ->
     exists self', update_genotypes ref alts self = (Ok (), self'))
  /\ (~ Forall (fun sample =>
                  Forall (resolves (alleles self) (ref :: alts))
                         (genotype_tokens sample))
               (sample_data self) ->
      exists e, (e = ValueError \/ e = IndexError)
                /\ update_genotypes ref alts self = (Err e, self)).
Proof.
  rewrite update_genotypes_stages.
  set (to_allele := fun tok => hap ← int tok; getitem (alleles self) hap).
  set (to_index := fun hap => index hap (ref :: alts)).
  assert (Hforward :
            Forall (fun sample =>
                      Forall (resolves (alleles self) (ref :: alts))
                             (genotype_tokens sample)) (sample_data self) ->
            exists fulls idxss,
              mapM (mapM to_allele) (genotype_tokens <$> sample_data self) = Ok fulls
              /\ mapM (mapM to_index) fulls = Ok idxss).
  { intros Hall.
    destruct (mapM_Forall_ok (mapM to_allele)
                (Forall (fun a => a ∈ ref :: alts))
                (genotype_tokens <$> sample_data self)) as (fulls & Hfulls & Hin).
    { apply Forall_fmap. eapply Forall_impl; [exact Hall|].
      intros sample Hs. now apply resolves_stage. }
    destruct (mapM_Forall_ok (mapM to_index) (fun _ => True) fulls)
      as (idxss & Hidxss & _).
    { eapply Forall_impl; [exact Hin|]. intros full Hfull.
      destruct (index_stage (ref :: alts) full Hfull) as [idxs Hidxs].
      now exists idxs. }
    now exists fulls, idxss. }
  destruct (mapM (mapM to_allele) (genotype_tokens <$> sample_data self))
    as [fulls|e] eqn:Hf.
  - destruct (mapM (mapM to_index) fulls) as [idxss|e] eqn:Hi.
    + split; [intros _; now eexists|]. intros Hnot. exfalso. apply Hnot.
      apply mapM_ok in Hf, Hi. apply Forall_forall. intros sample Hin.
      apply list_elem_of_lookup in Hin as [k Hk].
      assert (Hk' : (genotype_tokens <$> sample_data self) !! k
                    = Some (genotype_tokens sample))
        by now rewrite list_lookup_fmap, Hk.
      destruct (Forall2_lookup_l _ _ _ _ _ Hf Hk') as (full & Hfull & Hrun).
      destruct (Forall2_lookup_l _ _ _ _ _ Hi Hfull) as (idxs & _ & Hrun').
      now apply (stages_resolve _ _ _ full idxs).
    + split.
      * intros Hall. destruct (Hforward Hall) as (? & ? & [= <-] & ?). congruence.
      * intros _. exists e. split; [left|done]. clear Hforward. revert e Hi.
        apply mapM_error. intros full. apply mapM_error.
        intros a e He. now apply index_err in He as [-> _].
  - split.
    + intros Hall. now destruct (Hforward Hall) as (? & ? & ? & ?).
    + intros _. exists e. split; [|done]. clear Hforward. revert e Hf.
      apply mapM_error. intros toks. apply mapM_error.
      intros tok e. unfold to_allele.
      destruct (int tok) as [hap|e'] eqn:Hint; simpl.
      * intros He%getitem_error. now right.
      * intros [= <-]. apply int_error in Hint. now left.
Qed.

Lemma update_genotypes_lossless_or_fails_witness :
  (exists self',
     update_genotypes "T" ["A"] (Inputs.record "GT" ["0/1"]) = (Ok (), self'))
  /\ (exists e, (e = ValueError \/ e = IndexError)
         /\ update_genotypes "A" ["G"] (Inputs.record "GT" ["0/1"])
            = (Err e, Inputs.record "GT" ["0/1"]))
  /\ (exists e, (e = ValueError \/ e = IndexError)
         /\ update_genotypes "A" ["T"]
              (Inputs.record "GT" [String (ascii_of_N 31) "0/1"])
            = (Err e, Inputs.record "GT" [String (ascii_of_N 31) "0/1"])).
Proof.
  split; [|split].
  - apply (proj1 (update_genotypes_lossless_or_fails "T" ["A"] _)).
    repeat constructor.
    + exists 0, "A". repeat split. right. left.
    + exists 1, "T". repeat split. left.
  - apply (proj2 (update_genotypes_lossless_or_fails "A" ["G"] _)).
    intros Hall. apply Forall_cons in Hall as [Hs _].
    apply Forall_cons in Hs as [_ Hs]. apply Forall_cons in Hs as [H1 _].
    destruct H1 as (hap & a & Hint & Ha & Hin).
    vm_compute in Hint. injection Hint as <-.
    vm_compute in Ha. injection Ha as <-.
    apply elem_of_cons in Hin as [Hin|Hin]; [discriminate|].
    apply elem_of_cons in Hin as [Hin|Hin]; [discriminate|].
    now apply elem_of_nil in Hin.
  - apply (proj2 (update_genotypes_lossless_or_fails "A" ["T"] _)).
    intros Hall. apply Forall_cons in Hall as [Hs _].
    apply Forall_cons in Hs as [H0 _].
    destruct H0 as (hap & a & Hint & _).
    vm_compute in Hint. discriminate Hint.
Defined.

End RemapFacts.

(** ** Ploidy *)

Module PloidyFacts.
Import PyFacts BuiltinFacts VariantRecord RecordState Sexes.

Section loop.
Context (lm : libm) (sexes : list string).

Lemma fix_samples_length (idxs : list nat) :
  forall self,
    length (sample_data (fix_samples lm sexes idxs self).2)
    = length (sample_data self).
Proof.
  induction idxs as [|i idxs IH]; intros self; simpl; [done|].
  destruct (getitem sexes (Z.of_nat i)) as [s|e]; [|done].
  destruct (contains (lower s) ["m"; "male"; "xy"]).
  - destruct (convert_to_haploid lm i self ≫= join_values ":") as [new_sample|];
      [|done].
    rewrite IH. apply length_insert.
  - destruct (contains (lower s) ["f"; "female"; "xx"]); simpl; [apply IH|done].
Qed.

Lemma fix_samples_fields (idxs : list nat) :
  forall self,
    let self' := (fix_samples lm sexes idxs self).2 in
    line self' = line self /\ variant_data self' = variant_data self
    /\ original_sample_data self' = original_sample_data self
    /\ alleles self' = alleles self /\ format self' = format self
    /\ pos self' = pos self /\ chrom self' = chrom self.
Proof.
  induction idxs as [|i idxs IH]; intros self; simpl; [done|].
  destruct (getitem sexes (Z.of_nat i)) as [s|e]; [|done].
  destruct (contains (lower s) ["m"; "male"; "xy"]).
  - destruct (convert_to_haploid lm i self ≫= join_values ":") as [new_sample|];
      [|done].
    apply (IH (set_sample_data (<[i:=new_sample]> (sample_data self)) self)).
  - destruct (contains (lower s) ["f"; "female"; "xx"]); simpl; [apply IH|done].
Qed.

(** A sample whose sex is not a male token is never rewritten. *)
Lemma fix_samples_keeps (idx : nat) (s : string) (idxs : list nat) :
  sexes !! idx = Some s -> lower s ∉ male ->
  forall self,
    sample_data (fix_samples lm sexes idxs self).2 !! idx = sample_data self !! idx.
Proof.
  intros Hs Hother%contains_false.
  induction idxs as [|i idxs IH]; intros self; simpl; [done|].
  rewrite getitem_nat.
  destruct (sexes !! i) as [si|] eqn:Hi; [|done].
  destruct (contains (lower si) ["m"; "male"; "xy"]) eqn:Hmale.
  - destruct (convert_to_haploid lm i self ≫= join_values ":") as [new_sample|];
      [|done].
    rewrite IH. cbn [sample_data set_sample_data].
    apply list_lookup_insert_ne. intros ->.
    rewrite Hs in Hi. injection Hi as ->. unfold male in Hother. congruence.
  - destruct (contains (lower si) ["f"; "female"; "xx"]); simpl; [apply IH|done].
Qed.

(** A sex token that is neither male nor female, at an index that the
    loop visits, makes the loop raise. *)
Lemma fix_samples_invalid (idx : nat) (s : string) (idxs : list nat) :
  sexes !! idx = Some s -> lower s ∉ male -> lower s ∉ female ->
  idx ∈ idxs ->
  forall self, exists e, (fix_samples lm sexes idxs self).1 = Err e.
Proof.
  intros Hs Hm%contains_false Hf%contains_false.
  induction idxs as [|i idxs IH]; intros Hin self; [now apply elem_of_nil in Hin|].
  simpl. rewrite getitem_nat.
  destruct (sexes !! i) as [si|] eqn:Hi; [|now eexists].
  destruct (contains (lower si) ["m"; "male"; "xy"]) eqn:Hmale.
  - destruct (convert_to_haploid lm i self ≫= join_values ":") as [new_sample|];
      [|now eexists].
    apply IH. apply elem_of_cons in Hin as [->|Hin]; [|done].
    rewrite Hs in Hi. injection Hi as ->. unfold male in Hm. congruence.
  - destruct (contains (lower si) ["f"; "female"; "xx"]) eqn:Hfemale; simpl;
      [|now eexists].
    apply IH. apply elem_of_cons in Hin as [->|Hin]; [|done].
    rewrite Hs in Hi. injection Hi as ->. unfold female in Hf. congruence.
Qed.

End loop.

Section ploidy.
Context (lm : libm).

(** X13.  Whatever the outcome, [fix_ploidy] leaves the sample of every
    index whose sex token is not one of m, male, xy (in any case) exactly
    as it was. *)
Theorem fix_ploidy_keeps_non_male (sexes : list string) (regions : list region)
    (self : t) (idx : nat) (s : string) :
  sexes !! idx = Some s ->
  lower s ∉ male ->
  sample_data (fix_ploidy lm sexes regions self).2 !! idx = sample_data self !! idx.
Proof.
  intros Hs Hother. unfold fix_ploidy.
  repeat case_bool_decide; try done.
  destruct (int (pos self)) as [p|e]; [|done].
  destruct (in_regions (chrom self) p regions); [|done].
  pose proof (fix_samples_keeps lm sexes idx s
                (seq 0 (length (sample_data self))) Hs Hother self) as Hkeep.
  now destruct (fix_samples _ _ _ _) as [[[]|e] self'].
Qed.

Lemma fix_ploidy_fields (sexes : list string) (regions : list region) (self : t) :
  let r := (fix_ploidy lm sexes regions self).1 in
  let self' := (fix_ploidy lm sexes regions self).2 in
  length (sample_data self') = length (sample_data self)
  /\ original_sample_data self' = original_sample_data self
  /\ variant_data self' = variant_data self
  /\ alleles self' = alleles self
  /\ (r = Ok () -> consistent self')
  /\ (forall e, r = Err e -> line self' = line self).
Proof.
  unfold fix_ploidy. repeat case_bool_decide; try (cbn; now repeat split).
  destruct (int (pos self)) as [p|e]; [|cbn; now repeat split].
  destruct (in_regions (chrom self) p regions); [|cbn; now repeat split].
  pose proof (fix_samples_length lm sexes (seq 0 (length (sample_data self))) self)
    as Hlen.
  pose proof (fix_samples_fields lm sexes (seq 0 (length (sample_data self))) self)
    as (Hline & Hvd & Horig & Hall & _).
  destruct (fix_samples _ _ _ _) as [[[]|e] self']; cbn in *; now repeat split.
Qed.

(** X14.  [fix_ploidy] never changes the number of samples, the snapshot,
    the fixed fields or the allele list.  When it returns, the line is
    the fixed fields followed by the current sample data; when it raises,
    the line is the one it found, also when samples before the failing
    one have already been rewritten. *)
Theorem fix_ploidy_frame (sexes : list string) (regions : list region) (self : t) :
  let r := (fix_ploidy lm sexes regions self).1 in
  let self' := (fix_ploidy lm sexes regions self).2 in
  length (sample_data self') = length (sample_data self)
  /\ original_sample_data self' = original_sample_data self
  /\ variant_data self' = variant_data self
  /\ alleles self' = alleles self
  /\ (r = Ok () -> consistent self')
  /\ (forall e, r = Err e -> line self' = line self).
Proof. apply fix_ploidy_fields. Qed.

(** X15.  Sex tokens are checked inside the regions only.  For a record
    that is still as parsed, with one sex per sample, a token that is
    neither male nor female makes [fix_ploidy] raise when the position is
    inside a region, and goes unnoticed when it is outside. *)
Theorem fix_ploidy_checks_sexes_in_regions_only
    (sexes : list string) (regions : list region) (self : t) (p : Z) :
  length sexes = length (sample_data self) ->
  original_sample_data self = sample_data self ->
  int (pos self) = Ok p ->
  Exists (fun s => (lower s ∉ male) /\ (lower s ∉ female)) sexes ->
  (in_regions (chrom self) p regions = true ->
     exists e, (fix_ploidy lm sexes regions self).1 = Err e)
  /\ (in_regions (chrom self) p regions = false ->
      (fix_ploidy lm sexes regions self).1 = Ok ()).
Proof.
  intros Hlen Horig Hp Hbad. unfold fix_ploidy.
  rewrite bool_decide_eq_false_2 by (intros Hne; now apply Hne).
  rewrite bool_decide_eq_false_2 by (intros Hne; now apply Hne).
  rewrite Hp. split; intros ->; [|done].
  apply Exists_exists in Hbad as (s & Hin & Hm & Hf).
  apply list_elem_of_lookup in Hin as [idx Hidx].
  destruct (fix_samples_invalid lm sexes idx s (seq 0 (length (sample_data self)))
              Hidx Hm Hf) with (self := self) as [e He].
  - apply elem_of_seq. apply lookup_lt_Some in Hidx. lia.
  - exists e. now destruct (fix_samples _ _ _ _) as [[[]|e'] self'].
Qed.

End ploidy.

Lemma fix_ploidy_keeps_non_male_witness :
  let self := Inputs.record "GT:AD" ["0/1:3,10"; "0/1:3,10"] in
  sample_data (fix_ploidy Inputs.libm_nan ["male"; "Female"] Inputs.par self).2
  = ["1:3,10"; "0/1:3,10"]
  /\ sample_data (fix_ploidy Inputs.libm_nan ["male"; "Female"] Inputs.par self).2
       !! 1%nat
     = sample_data self !! 1%nat.
Proof.
  split; [reflexivity|].
  apply (fix_ploidy_keeps_non_male Inputs.libm_nan ["male"; "Female"] Inputs.par _ 1 "Female").
  - reflexivity.
  - apply (bool_decide_unpack _). vm_compute. exact I.
Defined.

Lemma fix_ploidy_frame_witness :
  let self := Inputs.record "GT:AD" ["0/1:3,10"; "0/1:3,10"] in
  let run := fix_ploidy Inputs.libm_nan ["m"; "?"] Inputs.par self in
  run.1 = Err ValueError
  /\ sample_data run.2 = ["1:3,10"; "0/1:3,10"]
  /\ line run.2 = line self.
Proof.
  split; [reflexivity|]. split; [reflexivity|].
  pose proof (fix_ploidy_frame Inputs.libm_nan ["m"; "?"] Inputs.par
                (Inputs.record "GT:AD" ["0/1:3,10"; "0/1:3,10"])) as Hframe.
  cbv zeta in Hframe. destruct Hframe as (_ & _ & _ & _ & _ & Hline).
  apply (Hline ValueError). reflexivity.
Defined.

Lemma fix_ploidy_checks_sexes_in_regions_only_witness :
  let self := Inputs.record "GT:AD" ["0/1:3,10"] in
  (exists e, (fix_ploidy Inputs.libm_nan ["unknown"] Inputs.par self).1 = Err e)
  /\ (fix_ploidy Inputs.libm_nan ["unknown"] [("chrX", 100, 200)] self).1 = Ok ().
Proof.
  assert (Hbad : Exists (fun s => (lower s ∉ male) /\ (lower s ∉ female)) ["unknown"]).
  { apply Exists_cons_hd. split; apply (bool_decide_unpack _); vm_compute; exact I. }
  split.
  - apply (proj1 (fix_ploidy_checks_sexes_in_regions_only Inputs.libm_nan ["unknown"] Inputs.par
                    (Inputs.record "GT:AD" ["0/1:3,10"]) 100
                    eq_refl eq_refl eq_refl Hbad)).
    reflexivity.
  - apply (proj2 (fix_ploidy_checks_sexes_in_regions_only Inputs.libm_nan ["unknown"]
                    [("chrX", 100, 200)]
                    (Inputs.record "GT:AD" ["0/1:3,10"]) 100
                    eq_refl eq_refl eq_refl Hbad)).
    reflexivity.
Defined.


End PloidyFacts.

(** ** Haploid conversion from allele depths *)

Module DepthFacts.
Import PyFacts BuiltinFacts VariantRecord RecordState.

(** *** Dictionaries built from two lists *)

Lemma foldl_insert_other {V} (l : list (string * V)) :
  forall (d : gmap string V) (key : string),
    key ∉ l.*1 ->
    foldl (fun d kv => <[kv.1 := kv.2]> d) d l !! key = d !! key.
Proof.
  induction l as [|[k v] l IH]; intros d key Hout; [done|].
  rewrite fmap_cons, not_elem_of_cons in Hout. destruct Hout as [Hk Hl].
  cbn [foldl]. rewrite IH by done. cbn. now rewrite lookup_insert_ne.
Qed.

Lemma foldl_insert_bound {V} (l : list (string * V)) :
  forall (d : gmap string V) (key : string) (v : V),
    NoDup l.*1 -> (key, v) ∈ l ->
    foldl (fun d kv => <[kv.1 := kv.2]> d) d l !! key = Some v.
Proof.
  induction l as [|[k w] l IH]; intros d key v Hnd Hin;
    [now apply elem_of_nil in Hin|].
  rewrite fmap_cons in Hnd. apply NoDup_cons in Hnd as [Hk Hnd].
  cbn [foldl]. apply elem_of_cons in Hin as [[= -> ->] | Hin].
  - rewrite foldl_insert_other by done. cbn. apply lookup_insert_eq.
  - now apply IH.
Qed.

(** [dict(zip(keys, vals))[key]] is the value at the position of [key],
    when no key occurs twice and no value is missing. *)
Lemma dict_zip_lookup (keys : list string) (vals : list value)
    (i : nat) (key : string) (v : value) :
  NoDup keys -> (length keys <= length vals)%nat ->
  keys !! i = Some key -> vals !! i = Some v ->
  dict_zip keys vals !! key = Some v.
Proof.
  intros Hnd Hlen Hk Hv. unfold dict_zip. apply foldl_insert_bound.
  - now rewrite fst_zip.
  - apply list_elem_of_lookup. exists i. apply lookup_zip_with_Some.
    now exists key, v.
Qed.

(** Reading every key back, from a dictionary that binds the key of each
    position to [F] of that key and the field at that position. *)
Lemma mapM_dict_get (d : gmap string value) (F : string -> string -> value)
    (keys fields : list string) :
  (length keys <= length fields)%nat ->
  (forall i key field,
     keys !! i = Some key -> fields !! i = Some field ->
     d !! key = Some (F key field)) ->
  mapM (dict_get d) keys = Ok (zip_with F keys fields).
Proof.
  intros Hlen Hbound. apply mapM_ok.
  apply Forall2_same_length_lookup_2.
  - rewrite length_zip_with. lia.
  - intros i key y Hk Hy.
    apply lookup_zip_with_Some in Hy as (key' & field & -> & Hk' & Hf).
    rewrite Hk in Hk'. injection Hk' as <-.
    unfold dict_get. now rewrite (Hbound i key field).
Qed.

(** *** The largest depth *)

Lemma foldl_max_bounds (l : list Z) :
  forall x,
    x <= foldl Z.max x l
    /\ Forall (fun y => y <= foldl Z.max x l) l
    /\ (foldl Z.max x l = x \/ foldl Z.max x l ∈ l).
Proof.
  induction l as [|y l IH]; intros x; simpl.
  - split; [lia|]. split; [constructor | now left].
  - destruct (IH (Z.max x y)) as (Hge & Hall & Hin).
    split; [lia|]. split.
    + constructor; [lia | done].
    + destruct Hin as [Heq | Hin].
      * destruct (Z.max_spec x y) as [[_ Hm] | [_ Hm]].
        -- right. rewrite Heq, Hm. now left.
        -- left. now rewrite Heq.
      * right. now right.
Qed.

Lemma max_bounds (l : list Z) (m : Z) :
  max l = Ok m -> m ∈ l /\ Forall (fun y => y <= m) l.
Proof.
  destruct l as [|x l]; [done|]. cbn [max]. intros [= <-].
  destruct (foldl_max_bounds l x) as (Hge & Hall & Hin). split.
  - destruct Hin as [-> | Hin]; [now left | now right].
  - now constructor.
Qed.

Lemma max_defined (l : list Z) : l ≠ [] -> exists m, max l = Ok m.
Proof. destruct l; [done|]. intros _. now eexists. Qed.

Lemma index_first `{EqDecision A} (x : A) (l : list A) :
  forall g,
    l !! g = Some x -> (forall j, (j < g)%nat -> l !! j ≠ Some x) ->
    index x l = Ok g.
Proof.
  induction l as [|y l IH]; intros g Hg Hfirst; [done|]. cbn [index].
  destruct (decide (y = x)) as [->|Hne].
  - destruct g as [|g]; [done|]. now destruct (Hfirst 0%nat ltac:(lia)).
  - destruct g as [|g]; [cbn in Hg; congruence|].
    rewrite (IH g); [done | done |].
    intros j Hj. apply (Hfirst (S j)). lia.
Qed.

Lemma count_cons `{EqDecision A} (x y : A) (l : list A) :
  count x (y :: l) = ((if decide (y = x) then 1 else 0) + count x l)%nat.
Proof. unfold count. rewrite filter_cons. now case_decide. Qed.

Lemma count_zero `{EqDecision A} (x : A) (l : list A) :
  count x l = 0%nat <-> x ∉ l.
Proof.
  induction l as [|y l IH]; [split; [intros _; apply not_elem_of_nil | done]|].
  rewrite count_cons, not_elem_of_cons. case_decide; [split; [lia | intros [? _]; congruence]|].
  simpl. rewrite IH. split; [intros; split; congruence | tauto].
Qed.

(** An item counted once occurs at one position only. *)
Lemma count_one `{EqDecision A} (x : A) (l : list A) :
  forall g1 g2,
    count x l = 1%nat -> l !! g1 = Some x -> l !! g2 = Some x -> g1 = g2.
Proof.
  induction l as [|y l IH]; intros g1 g2; [done|].
  rewrite count_cons. case_decide as Hy.
  - intros Hc. assert (Hout : x ∉ l) by (apply count_zero; lia).
    destruct g1 as [|g1]; destruct g2 as [|g2]; try done; cbn; intros H1 H2;
      exfalso; apply Hout; eapply list_elem_of_lookup_2; eassumption.
  - simpl. intros Hc. destruct g1 as [|g1]; [cbn; congruence|].
    destruct g2 as [|g2]; [cbn; congruence|]. cbn. intros H1 H2.
    f_equal. now apply IH.
Qed.

Lemma count_at_only `{EqDecision A} (x : A) (l : list A) (g : nat) :
  l !! g = Some x -> (forall j, l !! j = Some x -> j = g) -> count x l = 1%nat.
Proof.
  revert g. induction l as [|y l IH]; intros g Hg Honly; [done|].
  rewrite count_cons. destruct g as [|g].
  - cbn in Hg. injection Hg as ->. rewrite decide_True by done.
    assert (Hout : x ∉ l).
    { intros [j Hj]%list_elem_of_lookup. specialize (Honly (S j) Hj). lia. }
    apply count_zero in Hout. lia.
  - assert (Hy : y ≠ x).
    { intros ->. specialize (Honly 0%nat eq_refl). lia. }
    rewrite decide_False by done. simpl. apply (IH g Hg).
    intros j Hj. specialize (Honly (S j) Hj). lia.
Qed.

(** The three calls of the AD branch, for a strict maximum at [g]. *)
Lemma strict_maximum (ads : list Z) (g : nat) (m : Z) :
  ads !! g = Some m ->
  (forall j x, ads !! j = Some x -> j ≠ g -> x < m) ->
  max ads = Ok m /\ count m ads = 1%nat /\ index m ads = Ok g.
Proof.
  intros Hg Hstrict.
  assert (Honly : forall j, ads !! j = Some m -> j = g).
  { intros j Hj. destruct (decide (j = g)) as [|Hne]; [done|].
    specialize (Hstrict j m Hj Hne). lia. }
  split; [|split].
  - destruct (max_defined ads) as [M HM]; [now intros ->|].
    destruct (max_bounds _ _ HM) as [[j Hj]%list_elem_of_lookup Hall].
    rewrite HM. f_equal.
    destruct (decide (j = g)) as [->|Hne]; [congruence|].
    specialize (Hstrict j M Hj Hne).
    rewrite Forall_forall in Hall.
    specialize (Hall m (list_elem_of_lookup_2 _ _ _ Hg)). lia.
  - now apply (count_at_only m ads g).
  - apply index_first; [done|]. intros j Hj Hm. specialize (Honly j Hm). lia.
Qed.

(** The same calls when the largest depth [m] occurs at two positions. *)
Lemma tied_maximum (ads : list Z) (g1 g2 : nat) (m : Z) :
  g1 ≠ g2 -> ads !! g1 = Some m -> ads !! g2 = Some m ->
  (forall j x, ads !! j = Some x -> x <= m) ->
  max ads = Ok m /\ count m ads ≠ 1%nat.
Proof.
  intros Hne H1 H2 Hle. split.
  - destruct (max_defined ads) as [M HM]; [now intros ->|].
    destruct (max_bounds _ _ HM) as [[j Hj]%list_elem_of_lookup Hall].
    rewrite HM. f_equal.
    rewrite Forall_forall in Hall.
    specialize (Hall m (list_elem_of_lookup_2 _ _ _ H1)).
    specialize (Hle j M Hj). lia.
  - intros Hc. apply Hne. now apply (count_one m ads).
Qed.

Section conversion.
Context (lm : libm) (self : t) (sample_idx : nat).
Context (s ad : string) (k : nat) (ads : list Z).
Hypothesis Hkeys : NoDup (format_keys self).
Hypothesis Hpl : "PL" ∉ format_keys self.
Hypothesis Hsample : sample_data self !! sample_idx = Some s.
Hypothesis Hfields : (length (format_keys self) <= length (split ":" s))%nat.
Hypothesis Hkey : format_keys self !! k = Some "AD".
Hypothesis Had : split ":" s !! k = Some ad.
Hypothesis Hads : mapM int (split "," ad) = Ok ads.

Lemma sample_dict_lookup (i : nat) (key field : string) :
  format_keys self !! i = Some key -> split ":" s !! i = Some field ->
  dict_zip (format_keys self) (VStr <$> split ":" s) !! key = Some (VStr field).
Proof.
  intros Hk Hf. apply (dict_zip_lookup _ _ i); [done| |done|].
  - now rewrite length_fmap.
  - now rewrite list_lookup_fmap, Hf.
Qed.

Lemma convert_to_haploid_ad_branch :
  convert_to_haploid lm sample_idx self
  = convert_ad (dict_zip (format_keys self) (VStr <$> split ":" s))
    ≫= fun d => mapM (dict_get d) (format_keys self).
Proof.
  unfold convert_to_haploid. fold (format_keys self).
  rewrite (getitem_lookup _ _ _ Hsample), bind_ok.
  apply contains_false in Hpl. rewrite Hpl.
  assert (Hin : "AD" ∈ format_keys self) by now apply list_elem_of_lookup_2 in Hkey.
  apply contains_true in Hin. now rewrite Hin.
Qed.

Lemma convert_ad_reads :
  dict_get (dict_zip (format_keys self) (VStr <$> split ":" s)) "AD" ≫= str_method
  = Ok ad.
Proof. unfold dict_get. now rewrite (sample_dict_lookup k "AD" ad). Qed.

Lemma convert_to_haploid_ad_unique (g : nat) (m : Z) :
  ads !! g = Some m ->
  (forall j x, ads !! j = Some x -> j ≠ g -> x < m) ->
  convert_to_haploid lm sample_idx self
  = Ok (zip_with
          (fun key field =>
             VStr (if decide (key = "GT") then str (Z.of_nat g) else field))
          (format_keys self) (split ":" s)).
Proof.
  intros Hg Hstrict.
  destruct (strict_maximum ads g m Hg Hstrict) as (Hmax & Hcount & Hindex).
  rewrite convert_to_haploid_ad_branch. unfold convert_ad.
  rewrite convert_ad_reads, bind_ok, Hads, bind_ok, Hmax, bind_ok.
  rewrite bool_decide_eq_false_2 by (intros Hne; now apply Hne).
  rewrite Hindex, !bind_ok.
  apply mapM_dict_get; [done|]. intros i key field Hk Hf.
  case_decide as Hgt.
  - subst key. apply lookup_insert_eq.
  - rewrite lookup_insert_ne by done. now apply (sample_dict_lookup i).
Qed.

Lemma convert_to_haploid_ad_tie (g1 g2 : nat) (m : Z) :
  g1 ≠ g2 -> ads !! g1 = Some m -> ads !! g2 = Some m ->
  (forall j x, ads !! j = Some x -> x <= m) ->
  convert_to_haploid lm sample_idx self
  = Ok (zip_with (fun _ field => VStr field) (format_keys self) (split ":" s)).
Proof.
  intros Hne H1 H2 Hle.
  destruct (tied_maximum ads g1 g2 m Hne H1 H2 Hle) as (Hmax & Hcount).
  rewrite convert_to_haploid_ad_branch. unfold convert_ad.
  rewrite convert_ad_reads, bind_ok, Hads, bind_ok, Hmax, bind_ok.
  rewrite bool_decide_eq_true_2 by done. rewrite bind_ok.
  apply mapM_dict_get; [done|]. intros i key field Hk Hf.
  now apply (sample_dict_lookup i).
Qed.

End conversion.

(** X16.  Conversion from allele depths.  For a FORMAT without repeated
    keys and without PL, and a sample that has a field for every key and
    integer depths under AD: when one depth is strictly the largest, the
    converted sample is the old one, field by field, with the GT field
    (if FORMAT has one) replaced by the numeral of that depth's position;
    when the largest depth occurs twice, the converted sample is the old
    one, GT included.  Fields beyond the FORMAT keys are dropped. *)
Theorem convert_to_haploid_allele_depths (lm : libm) (self : t) (sample_idx : nat)
    (s ad : string) (k : nat) (ads : list Z) :
  NoDup (format_keys self) ->
  "PL" ∉ format_keys self ->
  sample_data self !! sample_idx = Some s ->
  (length (format_keys self) <= length (split ":" s))%nat ->
  format_keys self !! k = Some "AD" ->
  split ":" s !! k = Some ad ->
  mapM int (split "," ad) = Ok ads ->
  (forall (g : nat) (m : Z),
     ads !! g = Some m ->
     (forall j x, ads !! j = Some x -> j ≠ g -> x < m) ->
     convert_to_haploid lm sample_idx self
     = Ok (zip_with
             (fun key field =>
                VStr (if decide (key = "GT") then str (Z.of_nat g) else field))
             (format_keys self) (split ":" s)))
  /\ (forall (g1 g2 : nat) (m : Z),
        g1 ≠ g2 -> ads !! g1 = Some m -> ads !! g2 = Some m ->
        (forall j x, ads !! j = Some x -> x <= m) ->
        convert_to_haploid lm sample_idx self
        = Ok (zip_with (fun _ field => VStr field)
                (format_keys self) (split ":" s))).
Proof.
  intros Hkeys Hpl Hsample Hfields Hkey Had Hads. split.
  - intros g m. now apply (convert_to_haploid_ad_unique lm self sample_idx s ad k ads).
  - intros g1 g2 m. now apply (convert_to_haploid_ad_tie lm self sample_idx s ad k ads).
Qed.

Lemma convert_to_haploid_allele_depths_witness :
  convert_to_haploid Inputs.libm_nan 0
    (Inputs.record "GT:DP:AD" ["0/1:15:3,10,2:extra"])
  = Ok [VStr "1"; VStr "15"; VStr "3,10,2"].
Proof.
  destruct (convert_to_haploid_allele_depths Inputs.libm_nan
              (Inputs.record "GT:DP:AD" ["0/1:15:3,10,2:extra"]) 0
              "0/1:15:3,10,2:extra" "3,10,2" 2 [3; 10; 2]) as [Hunique _].
  - apply (bool_decide_unpack _). vm_compute. exact I.
  - apply (bool_decide_unpack _). vm_compute. exact I.
  - reflexivity.
  - vm_compute. lia.
  - reflexivity.
  - reflexivity.
  - reflexivity.
  - apply (Hunique 1%nat 10); [reflexivity|].
    intros [|[|[|j]]] x; cbn; intros [= <-] Hne; lia.
Defined.

End DepthFacts.

(** ** Shuffling and the order of operations *)

Module ShuffleFacts.
Import PyFacts BuiltinFacts VariantRecord RecordState Shuffle.

(** The selection loop returns a rearrangement of the first [m] items of
    the pool. *)
Lemma sample_loop_permutation {A} (draws : list nat) :
  forall (pool : list A) (m : nat),
    (m <= length pool)%nat ->
    length draws = m ->
    (forall i j, draws !! i = Some j -> (j < m - i)%nat) ->
    exists l, sample_loop pool m draws = Ok l /\ l ≡ₚ take m pool.
Proof.
  induction draws as [|j draws IH]; intros pool m Hm Hlen Hvalid.
  - simpl in Hlen. subst m. now exists [].
  - destruct m as [|m]; [done|]. simpl in Hlen.
    assert (Hj : (j < S m)%nat) by (specialize (Hvalid 0%nat j eq_refl); lia).
    destruct (lookup_lt_is_Some_2 pool j ltac:(lia)) as [x Hx].
    destruct (lookup_lt_is_Some_2 pool m ltac:(lia)) as [y Hy].
    destruct (IH (<[j:=y]> pool) m) as (l & Hl & Hperm).
    + rewrite length_insert. lia.
    + lia.
    + intros i k Hk. specialize (Hvalid (S i) k Hk). lia.
    + exists (x :: l). split.
      * cbn [sample_loop]. rewrite (getitem_lookup _ _ _ Hx), bind_ok.
        replace (Z.of_nat (S m) - 1) with (Z.of_nat m) by lia.
        rewrite (getitem_lookup _ _ _ Hy), bind_ok.
        replace (S m - 1)%nat with m by lia. now rewrite Hl.
      * rewrite Hperm, (take_S_r _ _ _ Hy).
        destruct (decide (j = m)) as [->|Hne].
        -- rewrite take_insert_ge by lia. rewrite Hx in Hy. injection Hy as ->.
           apply Permutation_cons_append.
        -- rewrite take_insert_lt by lia.
           assert (Hxt : take m pool !! j = Some x)
             by (rewrite lookup_take_lt by lia; exact Hx).
           rewrite <- (take_drop_middle _ _ _ Hxt) at 2.
           rewrite insert_take_drop
             by (apply lookup_lt_Some in Hxt; exact Hxt).
           set (l1 := take j (take m pool)). set (l2 := drop (S j) (take m pool)).
           transitivity (x :: y :: l1 ++ l2).
           ++ apply perm_skip. symmetry. apply Permutation_middle.
           ++ symmetry. etransitivity; [apply Permutation_app_comm|]. cbn [app].
              etransitivity; [apply perm_skip; symmetry; apply Permutation_middle|].
              apply perm_swap.
Qed.

(** X17.  For every sequence of draws that the random generator can
    return, [shuffle_samples] returns with the sample data rearranged:
    the same strings with the same multiplicities, hence as many.  The
    line is rebuilt from the fixed fields and the new order; the snapshot
    and the fixed fields are untouched. *)
Theorem shuffle_samples_permutes (draws : list nat) (self : t) :
  valid_draws (length (sample_data self)) draws ->
  exists self',
    shuffle_samples draws self = (Ok (), self')
    /\ sample_data self' ≡ₚ sample_data self
    /\ length (sample_data self') = length (sample_data self)
    /\ consistent self'
    /\ original_sample_data self' = original_sample_data self
    /\ variant_data self' = variant_data self.
Proof.
  intros [Hlen Hvalid]. unfold shuffle_samples, random_sample.
  destruct (sample_loop_permutation draws (sample_data self)
              (length (sample_data self))) as (l & Hl & Hperm); [lia|done|done|].
  rewrite firstn_all in Hperm. rewrite Hl. eexists. split; [reflexivity|].
  cbn [sample_data set_line set_sample_data original_sample_data variant_data].
  split; [done|]. split; [now rewrite Hperm|]. now repeat split.
Qed.

Lemma shuffle_samples_permutes_witness :
  exists self',
    shuffle_samples [2; 0; 0]%nat (Inputs.record "GT" ["0/0"; "0/1"; "1/1"])
    = (Ok (), self')
    /\ sample_data self' = ["1/1"; "0/0"; "0/1"].
Proof.
  destruct (shuffle_samples_permutes [2; 0; 0]%nat
              (Inputs.record "GT" ["0/0"; "0/1"; "1/1"]))
    as (self' & Hrun & _).
  - split; [reflexivity|]. intros [|[|[|i]]] j; cbn; intros [= <-]; lia.
  - exists self'. split; [exact Hrun|].
    vm_compute in Hrun. injection Hrun as <-. reflexivity.
Defined.

Lemma fix_ploidy_guard (lm : libm) (sexes : list string) (regions : list region)
    (self : t) :
  sample_data self ≠ original_sample_data self ->
  fix_ploidy lm sexes regions self = (Err ValueError, self).
Proof.
  intros Hne. unfold fix_ploidy.
  case_bool_decide; [done|]. case_bool_decide; [done|]. congruence.
Qed.

(** X18.  Ploidy has to be fixed first.  On a record that is still as
    parsed, once [update_genotypes] or [shuffle_samples] has returned
    with sample data that differ from the parsed ones, [fix_ploidy]
    raises [ValueError] for every list of sexes and regions and leaves
    the record as that operation left it. *)
Theorem fix_ploidy_after_remap_or_shuffle (lm : libm) (self self' : t)
    (ref : string) (alts : list string) (draws : list nat)
    (sexes : list string) (regions : list region) :
  sample_data self = original_sample_data self ->
  update_genotypes ref alts self = (Ok (), self')
  \/ shuffle_samples draws self = (Ok (), self') ->
  sample_data self' ≠ sample_data self ->
  fix_ploidy lm sexes regions self' = (Err ValueError, self').
Proof.
  intros Hfresh Hop Hchanged. apply fix_ploidy_guard.
  assert (Horig : original_sample_data self' = original_sample_data self).
  { destruct Hop as [Hop | Hop].
    - revert Hop. unfold update_genotypes.
      match goal with |- context [match ?c with Ok _ => _ | Err _ => _ end] =>
        destruct c end; [|done].
      now intros [= <-].
    - revert Hop. unfold shuffle_samples.
      destruct (random_sample _ _); [|done]. now intros [= <-]. }
  rewrite Horig, <- Hfresh. exact Hchanged.
Qed.

Lemma fix_ploidy_after_remap_or_shuffle_witness :
  let self := Inputs.record "GT:AD" ["0/1:3,10"] in
  let self' := (update_genotypes "T" ["A"] self).2 in
  sample_data self' = ["1/0:3,10"]
  /\ fix_ploidy Inputs.libm_nan ["male"] Inputs.par self' = (Err ValueError, self').
Proof.
  split; [reflexivity|].
  apply (fix_ploidy_after_remap_or_shuffle Inputs.libm_nan
           (Inputs.record "GT:AD" ["0/1:3,10"]) _ "T" ["A"] []).
  - reflexivity.
  - left. vm_compute. reflexivity.
  - vm_compute. discriminate.
Defined.

(** X19.  The line keeps its number of fields.  On a record whose line
    is in step with its sample data, each of the three operations, when
    it returns, leaves a line of the same length that is again in step
    with the sample data. *)
Theorem operations_keep_field_count (lm : libm) (self self' : t)
    (ref : string) (alts : list string) (draws : list nat)
    (sexes : list string) (regions : list region) :
  consistent self ->
  update_genotypes ref alts self = (Ok (), self')
  \/ (valid_draws (length (sample_data self)) draws
      /\ shuffle_samples draws self = (Ok (), self'))
  \/ fix_ploidy lm sexes regions self = (Ok (), self') ->
  length (line self') = length (line self) /\ consistent self'.
Proof.
  intros Hc Hop.
  assert (Hkept : length (sample_data self') = length (sample_data self)
                  /\ variant_data self' = variant_data self /\ consistent self').
  { destruct Hop as [Hop | [[Hvalid Hop] | Hop]].
    - now apply (RemapFacts.update_genotypes_length ref alts).
    - destruct Hvalid as [Hlen Hvalid]. revert Hop.
      unfold shuffle_samples, random_sample.
      destruct (sample_loop_permutation draws (sample_data self)
                  (length (sample_data self))) as (l & -> & Hperm); [lia|done|done|].
      rewrite firstn_all in Hperm. intros [= <-].
      cbn [sample_data set_line set_sample_data variant_data].
      split; [now rewrite Hperm|]. now split.
    - pose proof (PloidyFacts.fix_ploidy_fields lm sexes regions self)
        as (Hlen & _ & Hvd & _ & Hok & _).
      rewrite Hop in Hlen, Hvd, Hok. cbn in Hlen, Hvd, Hok. auto. }
  destruct Hkept as (Hlen & Hvd & Hc'). split; [|done].
  unfold consistent in Hc, Hc'. rewrite Hc, Hc', !length_app, Hlen, Hvd. done.
Qed.

Lemma operations_keep_field_count_witness :
  let self := Inputs.record "GT:AD" ["0/1:3,10"; "1/1:0,9"] in
  let self' := (fix_ploidy Inputs.libm_nan ["m"; "f"] Inputs.par self).2 in
  sample_data self' = ["1:3,10"; "1/1:0,9"]
  /\ length (line self') = length (line self) /\ consistent self'.
Proof.
  split; [reflexivity|].
  apply (operations_keep_field_count Inputs.libm_nan
           (Inputs.record "GT:AD" ["0/1:3,10"; "1/1:0,9"]) _
           "A" [] [] ["m"; "f"] Inputs.par).
  - reflexivity.
  - right. right. vm_compute. reflexivity.
Defined.

End ShuffleFacts.
